(** * advertiseMedia: campaign analytics and click-through rate

    A shallow embedding of the campaign model ([src/models/Campaign.js]) and of
    the campaign controller (the handlers [createCampaign], [updateCampaign],
    [deleteCampaign], [getDashboardStats], [updateCampaignStatus],
    [updateCampaignAnalytics] and [updateCampaignDetails]).

    JavaScript numbers are IEEE 754 binary64 values, and so are Rocq's
    primitive floats: [+], [*], [/], [<?] and [=?] on [float] are the
    JavaScript operators [+], [*], [/], [<] and [===] on numbers, NaN,
    infinities and signed zeros included.

    The collection of campaign documents is a list, in collection order, and
    an identifier is a well-formed ObjectId written as a string: a request
    whose [:id] cannot be cast to an ObjectId makes the query throw and is
    answered 500 by the handler's [catch]; such requests are outside the
    model.  A query returns what the list holds.  [doc.save()] validates the
    document first and fails on a [Number] path that holds NaN; the handler
    that saves answers 500 from its [catch] then.  Validation of the other
    paths (the required texts and the enumerations) is modelled where a
    document is created; a stored document is taken to pass it when it is
    saved again.  Request bodies handed to
    [findOneAndUpdate] and [findByIdAndUpdate] are modelled for plain
    top-level keys; a body can also carry dotted paths
    (['analytics.clicks']) and update operators ([$set], [$inc]), which
    [UpdateData] does not express. *)

From Stdlib Require Import ZArith Zpower List String Ascii Bool Lia.
From Stdlib Require Import Floats DecimalString Permutation.
Import ListNotations.

Local Open Scope string_scope.

(** ** The JavaScript values and built-ins the handlers rely on *)

Module JS.

(** What a JSON request body can hold under a key, and [VUndefined] for a
    key that is absent. *)
Inductive value : Type :=
| VUndefined
| VNull
| VBoolean (b : bool)
| VNumber (x : float)
| VString (s : string)
| VObject.

Definition typeof (v : value) : string :=
  match v with
  | VUndefined => "undefined"
  | VNull => "object"
  | VBoolean _ => "boolean"
  | VNumber _ => "number"
  | VString _ => "string"
  | VObject => "object"
  end.

(** [ToBoolean] on a number: [+0], [-0] and NaN are falsy. *)
Definition truthy (x : float) : bool :=
  negb ((x =? 0)%float || is_nan x).

(** [x || 0] for a number [x]. *)
Definition or_zero (x : float) : float :=
  if truthy x then x else 0%float.

(** The text [Number.prototype.toFixed] produces.  From 10^21 upwards the
    standard hands the value to the general number-to-string conversion,
    whose exponent notation is kept symbolic. *)
Inductive number_text : Type :=
| Text (s : string)
| Exponential (x : float).

(** Decimal digits of a natural number, ["0"] for zero. *)
Definition digits (n : Z) : string :=
  NilZero.string_of_uint (N.to_uint (Z.to_N n)).

Fixpoint zeros (k : nat) : string :=
  match k with
  | O => ""
  | S k' => String "0" (zeros k')
  end.

(** Steps 11.c and 11.d of [toFixed]: pad the digits of [n] on the left to
    at least [f + 1] characters and put the point before the last [f]. *)
Definition place_point (f : nat) (m : string) : string :=
  match f with
  | O => m
  | _ =>
      let k := String.length m in
      let m' := if (k <=? f)%nat then zeros (f + 1 - k) ++ m else m in
      let k' := String.length m' in
      substring 0 (k' - f) m' ++ "." ++ substring (k' - f) f m'
  end.

(** The integer [n] for which [n / 10^f - m * 2^e] is closest to zero, the
    larger one of two. *)
Definition nearest_scaled (f : nat) (m : positive) (e : Z) : Z :=
  let v := (Z.pos m * 10 ^ Z.of_nat f)%Z in
  if (0 <=? e)%Z then (v * 2 ^ e)%Z
  else ((2 * v + 2 ^ (- e)) / 2 ^ (- e + 1))%Z.

(** [m * 2^e >= 10^21]. *)
Definition at_least_1e21 (m : positive) (e : Z) : bool :=
  if (0 <=? e)%Z then (10 ^ 21 <=? Z.pos m * 2 ^ e)%Z
  else (10 ^ 21 * 2 ^ (- e) <=? Z.pos m)%Z.

(** [x.toFixed(f)] for [0 <= f <= 100]. *)
Definition toFixed (f : nat) (x : float) : number_text :=
  match Prim2SF x with
  | S754_nan => Text "NaN"
  | S754_infinity s => Text (if s then "-Infinity" else "Infinity")
  | S754_zero _ => Text (place_point f (digits 0))
  | S754_finite s m e =>
      if at_least_1e21 m e then Exponential x
      else Text ((if s then "-" else "")
                   ++ place_point f (digits (nearest_scaled f m e)))
  end.

End JS.

(** The number a whole-number literal [n] denotes: the binary64 value
    nearest to [n]. *)
Definition of_integer (n : Z) : float :=
  SF2Prim (binary_normalize prec emax n 0 false).

(** ** The campaign document ([src/models/Campaign.js]) *)

Record Analytics : Type := mkAnalytics {
  impressions : float;
  clicks : float;
  ctr : float
}.

Record Campaign : Type := mkCampaign {
  _id : string;
  advertiser : string;
  campaignName : string;
  campaignDescription : string;
  campaignType : string;
  headline : string;
  body : string;
  callToAction : string;
  imageUrl : string;
  status : string;
  analytics : Analytics
}.

Definition set_analytics (c : Campaign) (a : Analytics) : Campaign :=
  mkCampaign (_id c) (advertiser c) (campaignName c) (campaignDescription c)
    (campaignType c) (headline c) (body c) (callToAction c) (imageUrl c)
    (status c) a.

(** The schema's defaults for [analytics]. *)
Definition default_analytics : Analytics := mkAnalytics 0 0 0.

(** [campaignSchema.pre('save', ...)]. *)
Definition pre_save (c : Campaign) : Campaign :=
  let a := analytics c in
  if (0 <? impressions a)%float
  then set_analytics c
         (mkAnalytics (impressions a) (clicks a)
            (clicks a / impressions a * 100)%float)
  else c.

(** ** The collection and the queries the controller issues *)

Definition Collection : Type := list Campaign.

Definition by_id (id : string) (c : Campaign) : bool :=
  String.eqb (_id c) id.

Definition by_id_and_advertiser (id userId : string) (c : Campaign) : bool :=
  String.eqb (_id c) id && String.eqb (advertiser c) userId.

Definition by_advertiser (userId : string) (c : Campaign) : bool :=
  String.eqb (advertiser c) userId.

(** [Campaign.findOne(filter)] and [Campaign.findById(id)]: the first match. *)
Definition findOne (filter : Campaign -> bool) (db : Collection)
  : option Campaign :=
  List.find filter db.

(** The first document matching [filter] replaced by its image under [f]. *)
Fixpoint update_first (filter : Campaign -> bool) (f : Campaign -> Campaign)
    (db : Collection) : Collection :=
  match db with
  | [] => []
  | c :: rest =>
      if filter c then f c :: rest
      else c :: update_first filter f rest
  end.

(** The first document matching [filter] removed. *)
Fixpoint delete_first (filter : Campaign -> bool) (db : Collection)
  : Collection :=
  match db with
  | [] => []
  | c :: rest =>
      if filter c then rest else c :: delete_first filter rest
  end.

(** The schema types [analytics.impressions], [analytics.clicks] and
    [analytics.ctr] as [Number] (Campaign.js, lines 43 to 56).  A [Number]
    path does not take NaN: the document fails validation. *)
Definition validate (a : Analytics) : bool :=
  negb (is_nan (impressions a) || is_nan (clicks a) || is_nan (ctr a)).

(** [doc.save()] for a document read from the collection: the document is
    validated, the hook runs, then the stored document with that [_id] is
    replaced.  The saved document is returned with the collection, as the
    caller keeps using it; [None] is the rejected promise of a document that
    fails validation, with nothing written. *)
Definition save (doc : Campaign) (db : Collection)
  : option (Campaign * Collection) :=
  if validate (analytics doc) then
    let doc' := pre_save doc in
    Some (doc', update_first (by_id (_id doc')) (fun _ => doc') db)
  else None.

(** ** Responses *)

Record AnalyticsView : Type := mkView {
  view_impressions : float;
  view_clicks : float;
  view_ctr : JS.number_text
}.

Record Performance : Type := mkPerformance {
  perf_id : string;
  perf_name : string;
  perf_type : string;
  perf_status : string;
  performance : AnalyticsView
}.

Record DashboardStats : Type := mkStats {
  activeCampaigns : nat;
  totalImpressions : float;
  overallCTR : JS.number_text;
  campaigns : list Performance
}.

Inductive Payload : Type :=
| Message (message : string)
| WithCampaign (message : string) (campaign : Campaign)
| WithStatus (message : string) (id : string) (new_status : string)
| WithAnalytics (message : string) (view : AnalyticsView)
| NamedAnalytics (name : string) (view : AnalyticsView)
| WithStats (stats : DashboardStats).

Record Response : Type := mkResponse {
  code : nat;
  json : Payload
}.

(** ** Analytics update ([updateCampaignAnalytics]) *)

(** [impressions > 0 ? (clicks / impressions) * 100 : 0], the expression both
    [updateCampaignAnalytics] and [getDashboardStats] evaluate. *)
Definition ratio_percent (clicks impressions : float) : float :=
  if (0 <? impressions)%float
  then (clicks / impressions * 100)%float
  else 0%float.

Record AnalyticsBody : Type := mkAnalyticsBody {
  body_impressions : JS.value;
  body_clicks : JS.value
}.

Definition is_number (v : JS.value) : bool :=
  String.eqb (JS.typeof v) "number".

Definition view_of (a : Analytics) : AnalyticsView :=
  mkView (impressions a) (clicks a) (JS.toFixed 2 (ctr a)).

(** The three rejections of the handler and its missing-document answer.
    The specification calls the first two [InvalidInputError] and the third
    [InvariantViolationError]. *)
Definition must_be_numbers : Response :=
  mkResponse 400 (Message "Impressions and clicks must be numbers").

Definition cannot_be_negative : Response :=
  mkResponse 400 (Message "Impressions and clicks cannot be negative").

Definition clicks_exceed_impressions : Response :=
  mkResponse 400 (Message "Clicks cannot be greater than impressions").

Definition campaign_not_found : Response :=
  mkResponse 404 (Message "Campaign not found").

Definition analytics_updated (a : Analytics) : Response :=
  mkResponse 200
    (WithAnalytics "Campaign analytics updated successfully" (view_of a)).

(** The answer of the handler's [catch]. *)
Definition error_updating_analytics : Response :=
  mkResponse 500 (Message "Error updating campaign analytics").

(** The two [typeof ... !== 'number'] tests are the first match: a value has
    type ["number"] exactly when it is a [JS.VNumber].  [a > b] is [b <? a].
    The [await campaign.save()] that rejects lands in the [catch]. *)
Definition updateCampaignAnalytics (id : string) (req : AnalyticsBody)
    (db : Collection) : Collection * Response :=
  match body_impressions req, body_clicks req with
  | JS.VNumber imp, JS.VNumber clk =>
      if ((imp <? 0) || (clk <? 0))%float then (db, cannot_be_negative)
      else
        match findOne (by_id id) db with
        | None => (db, campaign_not_found)
        | Some campaign =>
            let newImpressions :=
              (JS.or_zero (impressions (analytics campaign)) + imp)%float in
            let newClicks :=
              (JS.or_zero (clicks (analytics campaign)) + clk)%float in
            if (newImpressions <? newClicks)%float
            then (db, clicks_exceed_impressions)
            else
              let ctr := ratio_percent newClicks newImpressions in
              match save (set_analytics campaign
                            (mkAnalytics newImpressions newClicks ctr)) db with
              | Some (campaign', db') =>
                  (db', analytics_updated (analytics campaign'))
              | None => (db, error_updating_analytics)
              end
        end
  | _, _ => (db, must_be_numbers)
  end.

(** ** Creation ([createCampaign]) *)

(** The request body of a creation; a key that is absent is [None]. *)
Record CreateBody : Type := mkCreateBody {
  new_campaignName : option string;
  new_campaignDescription : option string;
  new_campaignType : option string;
  new_headline : option string;
  new_body : option string;
  new_callToAction : option string
}.

Definition campaignType_enum : list string :=
  ["BANNER"; "FEATURED"; "INTERACTIVE"].

Definition mem_string (s : string) (l : list string) : bool :=
  existsb (String.eqb s) l.

(** A [required] string path: present and not empty. *)
Definition required (field : option string) : option string :=
  match field with
  | Some "" => None
  | other => other
  end.

(** [Campaign.create(...)] as [createCampaign] calls it: the document is
    built from the given paths and the schema's defaults ([status] and the
    three [analytics] counters), validated, passed through the save hook and
    appended.  [None] stands for the validation error. *)
Definition create (fresh_id userId imageUrl : string) (b : CreateBody)
    (db : Collection) : option (Campaign * Collection) :=
  match required (new_campaignName b), required (new_campaignDescription b),
        required (new_campaignType b), required (new_headline b),
        required (new_body b), required (new_callToAction b),
        required (Some imageUrl) with
  | Some name, Some description, Some type, Some headline, Some body,
    Some callToAction, Some url =>
      if mem_string type campaignType_enum then
        let doc :=
          pre_save
            (mkCampaign fresh_id userId name description type headline body
               callToAction url "ACTIVE" default_analytics) in
        Some (doc, (db ++ [doc])%list)
      else None
  | _, _, _, _, _, _, _ => None
  end.

(** [file] is the uploaded image, if any, as the URL the image service
    answers for it; [fresh_id] is the identifier the store assigns. *)
Definition createCampaign (fresh_id userId : string) (file : option string)
    (b : CreateBody) (db : Collection) : Collection * Response :=
  match file with
  | None => (db, mkResponse 400 (Message "Image is required"))
  | Some secure_url =>
      match create fresh_id userId secure_url b db with
      | Some (campaign, db') =>
          (db', mkResponse 201
                  (WithCampaign "Campaign created successfully" campaign))
      | None => (db, mkResponse 500 (Message "Error creating campaign"))
      end
  end.

(** ** Updates that write the request body onto the document *)

(** The update document built from a request body made of plain top-level
    keys: each schema path that is present, cast to the schema's type.
    [upd_analytics] is the [analytics] object of the body when it carries all
    three numbers. *)
Record UpdateData : Type := mkUpdateData {
  upd_advertiser : option string;
  upd_campaignName : option string;
  upd_campaignDescription : option string;
  upd_campaignType : option string;
  upd_headline : option string;
  upd_body : option string;
  upd_callToAction : option string;
  upd_imageUrl : option string;
  upd_status : option string;
  upd_analytics : option Analytics
}.

Definition or_else {A : Type} (new : option A) (old : A) : A :=
  match new with
  | Some v => v
  | None => old
  end.

(** What [findOneAndUpdate] and [findByIdAndUpdate] do to the matched
    document: every path of the update document is set; no save hook and no
    validator runs. *)
Definition apply_update (u : UpdateData) (c : Campaign) : Campaign :=
  mkCampaign (_id c)
    (or_else (upd_advertiser u) (advertiser c))
    (or_else (upd_campaignName u) (campaignName c))
    (or_else (upd_campaignDescription u) (campaignDescription c))
    (or_else (upd_campaignType u) (campaignType c))
    (or_else (upd_headline u) (headline c))
    (or_else (upd_body u) (body c))
    (or_else (upd_callToAction u) (callToAction c))
    (or_else (upd_imageUrl u) (imageUrl c))
    (or_else (upd_status u) (status c))
    (or_else (upd_analytics u) (analytics c)).

Definition with_imageUrl (u : UpdateData) (url : string) : UpdateData :=
  mkUpdateData (upd_advertiser u) (upd_campaignName u)
    (upd_campaignDescription u) (upd_campaignType u) (upd_headline u)
    (upd_body u) (upd_callToAction u) (Some url) (upd_status u)
    (upd_analytics u).

Definition findOneAndUpdate (filter : Campaign -> bool) (u : UpdateData)
    (db : Collection) : option Campaign * Collection :=
  match findOne filter db with
  | None => (None, db)
  | Some c => (Some (apply_update u c), update_first filter (apply_update u) db)
  end.

Definition updateCampaign (id userId : string) (file : option string)
    (reqBody : UpdateData) (db : Collection) : Collection * Response :=
  let updateData :=
    match file with
    | Some secure_url => with_imageUrl reqBody secure_url
    | None => reqBody
    end in
  match findOneAndUpdate (by_id_and_advertiser id userId) updateData db with
  | (None, _) => (db, mkResponse 404 (Message "Campaign not found"))
  | (Some campaign, db') =>
      (db', mkResponse 200
              (WithCampaign "Campaign updated successfully" campaign))
  end.

Definition updateCampaignDetails (id : string) (updateData : UpdateData)
    (db : Collection) : Collection * Response :=
  match findOneAndUpdate (by_id id) updateData db with
  | (None, _) => (db, mkResponse 404 (Message "Campaign not found"))
  | (Some campaign, db') =>
      (db', mkResponse 200
              (WithCampaign "Campaign details updated successfully" campaign))
  end.

Definition validStatuses : list string :=
  ["PENDING"; "ACTIVE"; "PAUSED"; "COMPLETED"].

Definition status_only (s : string) : UpdateData :=
  mkUpdateData None None None None None None None None (Some s) None.

Definition updateCampaignStatus (id : string) (new_status : JS.value)
    (db : Collection) : Collection * Response :=
  match new_status with
  | JS.VString s =>
      if mem_string s validStatuses then
        match findOneAndUpdate (by_id id) (status_only s) db with
        | (None, _) => (db, mkResponse 404 (Message "Campaign not found"))
        | (Some campaign, db') =>
            (db', mkResponse 200
                    (WithStatus "Campaign status updated successfully"
                       (_id campaign) (status campaign)))
        end
      else (db, mkResponse 400 (Message "Invalid status value"))
  | _ => (db, mkResponse 400 (Message "Invalid status value"))
  end.

Definition deleteCampaign (id userId : string) (db : Collection)
  : Collection * Response :=
  match findOne (by_id_and_advertiser id userId) db with
  | None => (db, mkResponse 404 (Message "Campaign not found"))
  | Some _ =>
      (delete_first (by_id_and_advertiser id userId) db,
       mkResponse 200 (Message "Campaign deleted successfully"))
  end.

(** ** Reading the counters ([getDashboardStats], [getCampaignAnalytics]) *)

(** [campaigns.reduce((sum, campaign) => sum + field(campaign), 0)]. *)
Definition reduce_sum (field : Analytics -> float) (cs : list Campaign)
  : float :=
  fold_left (fun sum campaign => (sum + field (analytics campaign))%float)
    cs 0%float.

Definition is_active (c : Campaign) : bool := String.eqb (status c) "ACTIVE".

Definition performance_of (c : Campaign) : Performance :=
  mkPerformance (_id c) (campaignName c) (campaignType c) (status c)
    (view_of (analytics c)).

Definition getDashboardStats (userId : string) (db : Collection) : Response :=
  let activeCampaigns :=
    List.length (filter (fun c => by_advertiser userId c && is_active c) db) in
  let campaigns := filter (by_advertiser userId) db in
  let totalImpressions := reduce_sum impressions campaigns in
  let totalClicks := reduce_sum clicks campaigns in
  let overallCTR := ratio_percent totalClicks totalImpressions in
  mkResponse 200
    (WithStats
       (mkStats activeCampaigns totalImpressions (JS.toFixed 2 overallCTR)
          (map performance_of campaigns))).

Definition getCampaignAnalytics (id userId : string) (db : Collection)
  : Response :=
  match findOne (by_id_and_advertiser id userId) db with
  | None => mkResponse 404 (Message "Campaign not found")
  | Some campaign =>
      mkResponse 200
        (NamedAnalytics (campaignName campaign) (view_of (analytics campaign)))
  end.

(** ** The requests that write to the collection *)

(** One constructor for each handler that writes, with its arguments. *)
Inductive request : Type :=
| CreateCampaign (fresh_id userId : string) (file : option string)
    (b : CreateBody)
| UpdateCampaign (id userId : string) (file : option string) (u : UpdateData)
| DeleteCampaign (id userId : string)
| UpdateCampaignStatus (id : string) (new_status : JS.value)
| UpdateCampaignAnalytics (id : string) (b : AnalyticsBody)
| UpdateCampaignDetails (id : string) (u : UpdateData).

Definition handle (r : request) (db : Collection) : Collection * Response :=
  match r with
  | CreateCampaign fresh_id userId file b =>
      createCampaign fresh_id userId file b db
  | UpdateCampaign id userId file u => updateCampaign id userId file u db
  | DeleteCampaign id userId => deleteCampaign id userId db
  | UpdateCampaignStatus id new_status =>
      updateCampaignStatus id new_status db
  | UpdateCampaignAnalytics id b => updateCampaignAnalytics id b db
  | UpdateCampaignDetails id u => updateCampaignDetails id u db
  end.

(** The collection after a sequence of requests. *)
Definition run (rs : list request) (db : Collection) : Collection :=
  fold_left (fun db r => fst (handle r db)) rs db.

(** ** Names of uploaded files (the routes' [multer.diskStorage]) *)

(** [s.split('.')]: the pieces of [s] between its points, at least one. *)
Fixpoint split_dot (s : string) : list string :=
  match s with
  | EmptyString => [EmptyString]
  | String a rest =>
      if Ascii.eqb a "." then EmptyString :: split_dot rest
      else match split_dot rest with
           | piece :: pieces => String a piece :: pieces
           | [] => [String a EmptyString]
           end
  end.

(** [pieces.pop()] on the pieces of a split. *)
Definition pop (pieces : list string) : string := last pieces EmptyString.

(** The [filename] callback: [now] is [Date.now()] and [random] is
    [Math.round(Math.random() * 1E9)], both whole numbers. *)
Definition filename (fieldname : string) (now random : N)
    (originalname : string) : string :=
  let uniqueSuffix :=
    JS.digits (Z.of_N now) ++ "-" ++ JS.digits (Z.of_N random) in
  fieldname ++ "-" ++ uniqueSuffix ++ "." ++ pop (split_dot originalname).

(** * Notions used in the statements *)

Local Open Scope float_scope.

(** ** Outcomes of the analytics update *)

(** The counters an accepted update stores for a document whose counters
    were [a], as the handler computes them. *)
Definition incremented (a : Analytics) (imp clk : float) : Analytics :=
  let newImpressions := (JS.or_zero (impressions a) + imp)%float in
  let newClicks := (JS.or_zero (clicks a) + clk)%float in
  mkAnalytics newImpressions newClicks (ratio_percent newClicks newImpressions).

(** The six ways the handler can end, in the order it tests for them. *)
Inductive update_outcome (id : string) (req : AnalyticsBody) (db : Collection)
  : Collection * Response -> Prop :=
| Outcome_not_numbers :
    is_number (body_impressions req) = false
    \/ is_number (body_clicks req) = false ->
    update_outcome id req db (db, must_be_numbers)
| Outcome_negative (imp clk : float) :
    req = mkAnalyticsBody (JS.VNumber imp) (JS.VNumber clk) ->
    (imp <? 0) = true \/ (clk <? 0) = true ->
    update_outcome id req db (db, cannot_be_negative)
| Outcome_missing (imp clk : float) :
    req = mkAnalyticsBody (JS.VNumber imp) (JS.VNumber clk) ->
    (imp <? 0) = false -> (clk <? 0) = false ->
    findOne (by_id id) db = None ->
    update_outcome id req db (db, campaign_not_found)
| Outcome_exceeds (imp clk : float) (campaign : Campaign) :
    req = mkAnalyticsBody (JS.VNumber imp) (JS.VNumber clk) ->
    (imp <? 0) = false -> (clk <? 0) = false ->
    findOne (by_id id) db = Some campaign ->
    (impressions (incremented (analytics campaign) imp clk)
       <? clicks (incremented (analytics campaign) imp clk)) = true ->
    update_outcome id req db (db, clicks_exceed_impressions)
| Outcome_refused (imp clk : float) (campaign : Campaign) :
    req = mkAnalyticsBody (JS.VNumber imp) (JS.VNumber clk) ->
    (imp <? 0) = false -> (clk <? 0) = false ->
    findOne (by_id id) db = Some campaign ->
    (impressions (incremented (analytics campaign) imp clk)
       <? clicks (incremented (analytics campaign) imp clk)) = false ->
    validate (incremented (analytics campaign) imp clk) = false ->
    update_outcome id req db (db, error_updating_analytics)
| Outcome_accepted (imp clk : float) (campaign : Campaign) :
    req = mkAnalyticsBody (JS.VNumber imp) (JS.VNumber clk) ->
    (imp <? 0) = false -> (clk <? 0) = false ->
    findOne (by_id id) db = Some campaign ->
    (impressions (incremented (analytics campaign) imp clk)
       <? clicks (incremented (analytics campaign) imp clk)) = false ->
    validate (incremented (analytics campaign) imp clk) = true ->
    update_outcome id req db
      (update_first (by_id id)
         (fun _ => set_analytics campaign
                     (incremented (analytics campaign) imp clk)) db,
       analytics_updated (incremented (analytics campaign) imp clk)).

(** ** Consistent analytics *)

(** The clicks do not exceed the impressions and [ctr] is the ratio of the
    two counters. *)
Definition consistent (a : Analytics) : Prop :=
  (impressions a <? clicks a) = false
  /\ ctr a = ratio_percent (clicks a) (impressions a).

(** The clicks are at most the impressions and [ctr] is the ratio of the
    two counters. *)
Definition coherent (a : Analytics) : Prop :=
  (clicks a <=? impressions a) = true
  /\ ctr a = ratio_percent (clicks a) (impressions a).

Definition all_coherent (db : Collection) : Prop :=
  Forall (fun c => coherent (analytics c)) db.

(** A request whose handler hands the request body to [findOneAndUpdate] or
    [findByIdAndUpdate]. *)
Definition writes_body (r : request) : bool :=
  match r with
  | UpdateCampaign _ _ _ _ | UpdateCampaignDetails _ _ => true
  | _ => false
  end.

(** ** The shape of a [toFixed(2)] text *)

Definition is_digit (a : ascii) : bool :=
  ((48 <=? nat_of_ascii a) && (nat_of_ascii a <=? 57))%nat.

Fixpoint all_digits (s : string) : bool :=
  match s with
  | EmptyString => true
  | String a rest => is_digit a && all_digits rest
  end.

(** The text before the first point and the text after it. *)
Fixpoint split_point (s : string) : option (string * string) :=
  match s with
  | EmptyString => None
  | String a rest =>
      if Ascii.eqb a "." then Some (EmptyString, rest)
      else match split_point rest with
           | Some (whole, frac) => Some (String a whole, frac)
           | None => None
           end
  end.

(** One digit or more, a point, and exactly [f] digits. *)
Definition unsigned_fixed (f : nat) (s : string) : bool :=
  match split_point s with
  | Some (whole, frac) =>
      (0 <? String.length whole)%nat && all_digits whole
      && (String.length frac =? f)%nat && all_digits frac
  | None => false
  end.

(** A text with exactly two decimal places, after an optional minus sign. *)
Definition two_decimals (t : JS.number_text) : bool :=
  match t with
  | JS.Text (String a rest as s) =>
      if Ascii.eqb a "-" then unsigned_fixed 2 rest else unsigned_fixed 2 s
  | _ => false
  end.

(** The numbers [toFixed] writes in fixed notation: finite and below 10^21
    in magnitude. *)
Definition fixed_range (x : float) : bool :=
  match Prim2SF x with
  | S754_zero _ => true
  | S754_finite _ m e => negb (JS.at_least_1e21 m e)
  | _ => false
  end.

(** ** Whole-number counters *)

(** [2^53], that is [Number.MAX_SAFE_INTEGER + 1]: the whole numbers below
    it are binary64 values, added and compared without rounding. *)
Definition safe_bound : Z := (2 ^ 53)%Z.

(** The sum of a list of whole numbers. *)
Definition total (ns : list Z) : Z := fold_right Z.add 0%Z ns.

(** The campaigns' values of a counter are the whole numbers [ns]. *)
Definition counts (field : Analytics -> float) (cs : list Campaign)
    (ns : list Z) : Prop :=
  map (fun c => field (analytics c)) cs = map of_integer ns
  /\ Forall (fun n => (0 <= n)%Z) ns
  /\ (total ns < safe_bound)%Z.

(** The mean of the stored per-campaign rates, for comparison. *)
Definition mean_ctr (cs : list Campaign) : float :=
  reduce_sum ctr cs / of_integer (Z.of_nat (List.length cs)).

(** A shifted mantissa with no bit lost. *)
Definition exact (m : Z) : shr_record :=
  {| shr_m := m; shr_r := false; shr_s := false |}.

(** The exponent of the smallest subnormal binary64 number. *)
Definition emin64 : Z := (-1074)%Z.

(** Exponent and 53-bit mantissa of a whole number below 2^53. *)
Definition cexp (n : Z) : Z := (Z.log2 n - 52)%Z.

Definition cman (n : Z) : positive := Z.to_pos (n * 2 ^ (52 - Z.log2 n))%Z.

(** ** Sample data for the worked cases *)

Definition sample (a : Analytics) : Campaign :=
  mkCampaign "c1" "u1" "Spring sale" "Seasonal offer" "BANNER" "Save now"
    "Everything must go" "Shop" "https://img.example/c1.png" "ACTIVE" a.

Definition increment (imp clk : float) : AnalyticsBody :=
  mkAnalyticsBody (JS.VNumber imp) (JS.VNumber clk).

Definition sample_request : CreateBody :=
  mkCreateBody (Some "Spring sale") (Some "Seasonal offer") (Some "BANNER")
    (Some "Save now") (Some "Everything must go") (Some "Shop").

(** ** Identifiers, bodies and file names *)

(** No two documents share an [_id]. *)
Definition unique_ids (db : Collection) : Prop := NoDup (map _id db).

(** Every creation of the sequence is given an [_id] that no stored document
    has at that moment. *)
Fixpoint fresh_ids (rs : list request) (db : Collection) : bool :=
  match rs with
  | [] => true
  | r :: rest =>
      match r with
      | CreateCampaign fresh_id _ _ _ => negb (existsb (by_id fresh_id) db)
      | _ => true
      end
      && fresh_ids rest (fst (handle r db))
  end.

(** A request that neither creates nor deletes. *)
Definition is_update (r : request) : bool :=
  match r with
  | CreateCampaign _ _ _ _ | DeleteCampaign _ _ => false
  | _ => true
  end.

(** A creation body the schema accepts: the six required texts are present
    and not empty, and the type is one of the enumeration. *)
Definition well_formed (b : CreateBody) : bool :=
  match required (new_campaignName b), required (new_campaignDescription b),
        required (new_campaignType b), required (new_headline b),
        required (new_body b), required (new_callToAction b) with
  | Some _, Some _, Some type, Some _, Some _, Some _ =>
      mem_string type campaignType_enum
  | _, _, _, _, _, _ => false
  end.

(** A document with its status replaced. *)
Definition set_status (c : Campaign) (s : string) : Campaign :=
  mkCampaign (_id c) (advertiser c) (campaignName c) (campaignDescription c)
    (campaignType c) (headline c) (body c) (callToAction c) (imageUrl c)
    s (analytics c).

(** A text without a point. *)
Fixpoint no_dot (s : string) : bool :=
  match s with
  | EmptyString => true
  | String a rest => negb (Ascii.eqb a ".") && no_dot rest
  end.

(** [s] ends with [tail]. *)
Definition ends_with (tail s : string) : Prop :=
  exists front, s = front ++ tail.

(** * Properties *)

(** ** Facts about binary64 numbers *)

Section FloatFacts.

Lemma Prim2SF_nan : Prim2SF nan = S754_nan.
Proof. reflexivity. Qed.

Lemma add_nan_r (x : float) : x + nan = nan.
Proof.
  apply Prim2SF_inj. rewrite add_spec, Prim2SF_nan.
  destruct (Prim2SF x); reflexivity.
Qed.

Lemma div_nan_l (x : float) : nan / x = nan.
Proof.
  apply Prim2SF_inj. rewrite div_spec, Prim2SF_nan.
  destruct (Prim2SF x); reflexivity.
Qed.

Lemma ltb_nan_r (x : float) : (x <? nan) = false.
Proof.
  rewrite ltb_spec, Prim2SF_nan. destruct (Prim2SF x); reflexivity.
Qed.

Lemma ltb_nan_l (x : float) : (nan <? x) = false.
Proof.
  rewrite ltb_spec, Prim2SF_nan. destruct (Prim2SF x); reflexivity.
Qed.

Lemma SFcompare_refl (x : spec_float) :
  x <> S754_nan -> SFcompare x x = Some Eq.
Proof.
  destruct x as [s|s| |s m e]; intros Hx; try congruence;
    try (destruct s; reflexivity).
  simpl. rewrite Z.compare_refl, Pos.compare_cont_refl.
  destruct s; reflexivity.
Qed.

Lemma is_nan_Prim2SF (x : float) :
  is_nan x = true <-> Prim2SF x = S754_nan.
Proof.
  unfold is_nan. rewrite eqb_spec. unfold SFeqb. split.
  - intros H. destruct (Prim2SF x) as [s|s| |s m e] eqn:E; trivial;
      rewrite SFcompare_refl in H by discriminate; discriminate.
  - intros ->. reflexivity.
Qed.

Lemma is_nan_eq (x : float) : is_nan x = true <-> x = nan.
Proof.
  rewrite is_nan_Prim2SF. split.
  - intros H. apply Prim2SF_inj. now rewrite H.
  - now intros ->.
Qed.

(** Comparing the other way round gives the opposite answer. *)
Lemma SFcompare_antisym (x y : spec_float) :
  SFcompare y x = option_map CompOpp (SFcompare x y).
Proof.
  destruct x as [sx|sx| |sx mx ex], y as [sy|sy| |sy my ey];
    try reflexivity;
    try (destruct sx; reflexivity);
    try (destruct sy; reflexivity);
    try (destruct sx, sy; reflexivity).
  simpl. rewrite (Z.compare_antisym ex ey).
  pose proof (Pos.compare_cont_antisym mx my Eq) as H. simpl in H.
  rewrite <- H.
  destruct sx, sy, (ex ?= ey)%Z; simpl; try reflexivity.
  all: destruct (Pos.compare_cont Eq mx my); reflexivity.
Qed.

(** On numbers, "not greater" is "at most"; NaN is neither. *)
Lemma not_gt_le (x y : float) :
  is_nan x = false -> is_nan y = false ->
  (x <? y) = false -> (y <=? x) = true.
Proof.
  intros Hx Hy. rewrite ltb_spec, leb_spec. unfold SFltb, SFleb.
  rewrite (SFcompare_antisym (Prim2SF x) (Prim2SF y)).
  assert (Prim2SF x <> S754_nan) as Nx
    by (intros E; apply is_nan_Prim2SF in E; congruence).
  assert (Prim2SF y <> S754_nan) as Ny
    by (intros E; apply is_nan_Prim2SF in E; congruence).
  destruct (SFcompare (Prim2SF x) (Prim2SF y)) as [[]|] eqn:E;
    simpl; try congruence.
  destruct (Prim2SF x), (Prim2SF y); simpl in E; congruence.
Qed.

(** [x || 0] keeps every number but NaN and [-0]. *)
Lemma or_zero_id (x : float) :
  is_nan x = false -> x <> (-0) -> JS.or_zero x = x.
Proof.
  intros Hn Hz. unfold JS.or_zero, JS.truthy. rewrite Hn, orb_false_r.
  destruct (x =? 0) eqn:E; trivial.
  rewrite eqb_spec in E. change (Prim2SF 0) with (S754_zero false) in E.
  apply Prim2SF_inj. change (Prim2SF 0) with (S754_zero false).
  destruct (Prim2SF x) as [[]|[]| |[] m e] eqn:Ex; try discriminate; trivial.
  exfalso. apply Hz. apply Prim2SF_inj. now rewrite Ex.
Qed.

End FloatFacts.

(** ** Whole numbers as binary64 values *)

Section SafeIntegers.

Local Open Scope Z_scope.

Lemma shr_1_double (k : Z) : shr_1 (exact (2 * k)) = exact k.
Proof. destruct k; reflexivity. Qed.

Lemma iter_shr_exact (p : positive) :
  forall m, iter_pos shr_1 p (exact (m * 2 ^ Zpos p)) = exact m.
Proof.
  induction p as [p IH|p IH|]; intros m; cbn [iter_pos].
  - assert (m * 2 ^ Zpos p~1 = 2 * ((m * 2 ^ Zpos p) * 2 ^ Zpos p)) as ->.
    { replace (Zpos p~1) with (Zpos p + Zpos p + 1) by lia.
      rewrite !Z.pow_add_r by lia. ring. }
    now rewrite shr_1_double, !IH.
  - assert (m * 2 ^ Zpos p~0 = (m * 2 ^ Zpos p) * 2 ^ Zpos p) as ->.
    { replace (Zpos p~0) with (Zpos p + Zpos p) by lia.
      rewrite !Z.pow_add_r by lia. ring. }
    now rewrite !IH.
  - rewrite Z.pow_1_r, Z.mul_comm. apply shr_1_double.
Qed.

Lemma iter_xO_pow (m d : positive) :
  Zpos (Pos.iter xO m d) = Zpos m * 2 ^ Zpos d.
Proof.
  change (Pos.iter xO m d) with (shift_pos d m).
  rewrite shift_pos_correct. change (Z.pow_pos 2 d) with (2 ^ Zpos d). ring.
Qed.

Lemma digits2_log2 (m : positive) :
  Zpos (digits2_pos m) = Z.log2 (Zpos m) + 1.
Proof.
  induction m as [m IH|m IH|]; simpl; trivial;
    rewrite Pos2Z.inj_succ; destruct m; simpl in *; lia.
Qed.

Lemma fexp_digits (m : positive) (e e0 : Z) :
  Z.log2 (Zpos m) + e = 52 + e0 -> emin64 <= e0 ->
  fexp prec emax (Zpos (digits2_pos m) + e) = e0.
Proof.
  intros H He. rewrite digits2_log2.
  unfold fexp, SpecFloat.emin, prec, emax, emin64 in *. lia.
Qed.

(** A mantissa of 53 bits with an exponent in range is returned as it is. *)
Lemma binary_round_aux_canonical (q : positive) (e : Z) :
  Z.log2 (Zpos q) = 52 -> emin64 <= e <= 971 ->
  binary_round_aux prec emax false (Zpos q) e loc_Exact = S754_finite false q e.
Proof.
  intros Hq He. unfold binary_round_aux, shr_fexp. cbn [Zdigits2].
  rewrite (fexp_digits q e e) by lia. rewrite Z.sub_diag.
  cbn [shr shr_record_of_loc shr_m loc_of_shr_record round_nearest_even Zdigits2].
  rewrite (fexp_digits q e e) by lia. rewrite Z.sub_diag.
  cbn [shr shr_record_of_loc shr_m].
  replace (e <=? emax - prec) with true; trivial.
  symmetry. apply Z.leb_le. unfold emax, prec. lia.
Qed.

Lemma binary_round_coarser (q m : positive) (e j : Z) :
  Z.log2 (Zpos q) = 52 -> emin64 <= e <= 971 -> 0 <= j ->
  Zpos m = Zpos q * 2 ^ j ->
  binary_round prec emax false m (e - j) = S754_finite false q e.
Proof.
  intros Hq He Hj Hm. unfold binary_round.
  assert (Z.log2 (Zpos m) = 52 + j) as Hlog
    by (rewrite Hm, Z.log2_mul_pow2 by lia; lia).
  rewrite (fexp_digits m (e - j) e) by lia.
  unfold shl_align.
  destruct (e - (e - j)) eqn:E; try lia.
  - assert (j = 0) by lia. subst j. rewrite Z.pow_0_r, Z.mul_1_r in Hm.
    injection Hm as ->. rewrite Z.sub_0_r. now apply binary_round_aux_canonical.
  - assert (j = Zpos p) by lia. subst j.
    unfold binary_round_aux, shr_fexp. cbn [Zdigits2].
    rewrite (fexp_digits m (e - Zpos p) e) by lia. rewrite E. unfold shr.
    change (shr_record_of_loc (Zpos m) loc_Exact) with (exact (Zpos m)).
    rewrite Hm, iter_shr_exact.
    cbn [exact shr_m loc_of_shr_record round_nearest_even].
    replace (e - Z.pos p + Z.pos p) with e by lia.
    unfold shr_fexp. cbn [Zdigits2].
    rewrite (fexp_digits q e e) by lia. rewrite Z.sub_diag.
    cbn [shr shr_record_of_loc shr_m].
    replace (e <=? emax - prec) with true; trivial.
    symmetry. apply Z.leb_le. unfold emax, prec. lia.
Qed.

Lemma binary_round_finer (q m : positive) (e j : Z) :
  Z.log2 (Zpos q) = 52 -> emin64 <= e <= 971 -> 0 <= j ->
  Zpos q = Zpos m * 2 ^ j ->
  binary_round prec emax false m (e + j) = S754_finite false q e.
Proof.
  intros Hq He Hj Hm. unfold binary_round.
  assert (Z.log2 (Zpos m) + j = 52) as Hlog
    by (rewrite <- Hq, Hm, Z.log2_mul_pow2 by lia; lia).
  rewrite (fexp_digits m (e + j) e) by lia.
  unfold shl_align.
  destruct (e - (e + j)) eqn:E; try lia.
  - assert (j = 0) by lia. subst j. rewrite Z.pow_0_r, Z.mul_1_r in Hm.
    injection Hm as <-. rewrite Z.add_0_r. now apply binary_round_aux_canonical.
  - assert (j = Zpos p) by lia. subst j.
    assert (Pos.iter xO m p = q) as ->
      by (apply Pos2Z.inj; now rewrite iter_xO_pow).
    now apply binary_round_aux_canonical.
Qed.

Lemma safe_log2 (n : Z) : 0 < n < 2 ^ 53 -> 0 <= Z.log2 n <= 52.
Proof.
  intros [H1 H2]. split; [ apply Z.log2_nonneg | ].
  apply Z.log2_lt_pow2 in H2; lia.
Qed.

Lemma cman_value (n : Z) :
  0 < n < 2 ^ 53 -> Zpos (cman n) = n * 2 ^ (52 - Z.log2 n).
Proof.
  intros H. pose proof (safe_log2 n H). unfold cman.
  rewrite Z2Pos.id; trivial.
  apply Z.mul_pos_pos; [ lia | apply Z.pow_pos_nonneg; lia ].
Qed.

Lemma cman_log2 (n : Z) : 0 < n < 2 ^ 53 -> Z.log2 (Zpos (cman n)) = 52.
Proof.
  intros H. pose proof (safe_log2 n H).
  rewrite cman_value, Z.log2_mul_pow2 by lia. lia.
Qed.

Lemma normalize_safe (n : Z) :
  0 < n < 2 ^ 53 ->
  binary_normalize prec emax n 0 false = S754_finite false (cman n) (cexp n).
Proof.
  intros H. pose proof (safe_log2 n H) as Hl.
  destruct n as [|p|p]; try lia. unfold binary_normalize.
  replace 0 with (cexp (Zpos p) + (52 - Z.log2 (Zpos p))) at 1
    by (unfold cexp; lia).
  apply binary_round_finer.
  - now apply cman_log2.
  - unfold cexp, emin64. lia.
  - lia.
  - now apply cman_value.
Qed.

Lemma Prim2SF_of_integer (n : Z) :
  0 < n < 2 ^ 53 ->
  Prim2SF (of_integer n) = S754_finite false (cman n) (cexp n).
Proof.
  intros H. pose proof (safe_log2 n H) as Hl. unfold of_integer.
  rewrite normalize_safe by assumption.
  apply Prim2SF_SF2Prim. unfold valid_binary, bounded, canonical_mantissa.
  rewrite (fexp_digits (cman n) (cexp n) (cexp n)).
  - rewrite Z.eqb_refl. apply Z.leb_le. unfold cexp, emax, prec. lia.
  - rewrite cman_log2 by assumption. lia.
  - unfold cexp, emin64. lia.
Qed.

Lemma shl_align_value (m : positive) (e e' : Z) :
  e' <= e ->
  Zpos (fst (shl_align m e e')) = Zpos m * 2 ^ (e - e').
Proof.
  intros H. unfold shl_align. destruct (e' - e) eqn:E; try lia.
  - replace (e - e') with 0 by lia. simpl fst. lia.
  - simpl fst. rewrite iter_xO_pow. f_equal. f_equal. lia.
Qed.

Local Open Scope float_scope.

(** Adding whole numbers is exact while the sum stays below 2^53. *)
Lemma of_integer_add (x y : Z) :
  (0 <= x)%Z -> (0 <= y)%Z -> (x + y < 2 ^ 53)%Z ->
  of_integer x + of_integer y = of_integer (x + y).
Proof.
  intros Hx Hy Hsum. apply Prim2SF_inj. rewrite add_spec.
  destruct (Z.eq_dec x 0) as [-> | Hx0].
  { change (Prim2SF (of_integer 0)) with (S754_zero false).
    destruct (Z.eq_dec y 0) as [-> | Hy0]; [ reflexivity | ].
    rewrite Z.add_0_l, Prim2SF_of_integer by lia. reflexivity. }
  destruct (Z.eq_dec y 0) as [-> | Hy0].
  { change (Prim2SF (of_integer 0)) with (S754_zero false).
    rewrite Z.add_0_r, Prim2SF_of_integer by lia. reflexivity. }
  assert (0 < x < 2 ^ 53)%Z as Sx by lia.
  assert (0 < y < 2 ^ 53)%Z as Sy by lia.
  assert (0 < x + y < 2 ^ 53)%Z as Sz by lia.
  rewrite !Prim2SF_of_integer by assumption.
  pose proof (safe_log2 x Sx) as Lx. pose proof (safe_log2 y Sy) as Ly.
  pose proof (safe_log2 (x + y) Sz) as Lz.
  assert (Z.log2 x <= Z.log2 (x + y))%Z as Mx by (apply Z.log2_le_mono; lia).
  assert (Z.log2 y <= Z.log2 (x + y))%Z as My by (apply Z.log2_le_mono; lia).
  unfold SF64add, SFadd.
  set (ez := Z.min (cexp x) (cexp y)).
  assert (ez <= cexp x /\ ez <= cexp y /\ ez <= cexp (x + y) /\ ez <= 0)%Z
    as (Ex & Ey & Ez & E0) by (unfold ez, cexp; lia).
  set (a := fst (shl_align (cman x) (cexp x) ez)).
  set (b := fst (shl_align (cman y) (cexp y) ez)).
  assert (Zpos a = x * 2 ^ (- ez))%Z as Ha.
  { unfold a. rewrite shl_align_value, cman_value by assumption.
    rewrite <- Z.mul_assoc, <- Z.pow_add_r by (unfold cexp in *; lia).
    f_equal. f_equal. unfold cexp. lia. }
  assert (Zpos b = y * 2 ^ (- ez))%Z as Hb.
  { unfold b. rewrite shl_align_value, cman_value by assumption.
    rewrite <- Z.mul_assoc, <- Z.pow_add_r by (unfold cexp in *; lia).
    f_equal. f_equal. unfold cexp. lia. }
  cbn [cond_Zopp Z.add binary_normalize].
  pose proof (binary_round_coarser (cman (x + y)) (a + b)
                (cexp (x + y)) (cexp (x + y) - ez)) as H.
  replace (cexp (x + y) - (cexp (x + y) - ez))%Z with ez in H by lia.
  apply H.
  - now apply cman_log2.
  - unfold cexp, emin64. lia.
  - lia.
  - rewrite Pos2Z.inj_add, Ha, Hb, cman_value by assumption.
    rewrite <- Z.mul_assoc, <- Z.pow_add_r by (unfold cexp in *; lia).
    replace (52 - Z.log2 (x + y) + (cexp (x + y) - ez))%Z with (- ez)%Z
      by (unfold cexp; lia).
    ring.
Qed.

(** Comparing whole numbers below 2^53 is comparing them as integers. *)
Lemma of_integer_ltb (x y : Z) :
  (0 <= x < 2 ^ 53)%Z -> (0 <= y < 2 ^ 53)%Z ->
  (of_integer x <? of_integer y) = (x <? y)%Z.
Proof.
  intros Hx Hy. rewrite ltb_spec. unfold SFltb.
  destruct (Z.eq_dec x 0) as [-> | Hx0].
  { change (Prim2SF (of_integer 0)) with (S754_zero false).
    destruct (Z.eq_dec y 0) as [-> | Hy0]; [ reflexivity | ].
    rewrite Prim2SF_of_integer by lia. simpl. symmetry. apply Z.ltb_lt. lia. }
  destruct (Z.eq_dec y 0) as [-> | Hy0].
  { change (Prim2SF (of_integer 0)) with (S754_zero false).
    rewrite Prim2SF_of_integer by lia. simpl. symmetry. apply Z.ltb_ge. lia. }
  assert (0 < x < 2 ^ 53)%Z as Sx by lia.
  assert (0 < y < 2 ^ 53)%Z as Sy by lia.
  rewrite !Prim2SF_of_integer by assumption.
  pose proof (safe_log2 x Sx) as Lx. pose proof (safe_log2 y Sy) as Ly.
  cbn [SFcompare]. unfold cexp.
  destruct (Z.compare_spec (Z.log2 x - 52) (Z.log2 y - 52)) as [E | E | E].
  - assert (Z.log2 x = Z.log2 y) as El by lia.
    change (Pos.compare_cont Eq (cman x) (cman y))
      with (Zpos (cman x) ?= Zpos (cman y))%Z.
    rewrite !cman_value, El by assumption.
    rewrite <- Zmult_compare_compat_r
      by (apply Z.lt_gt, Z.pow_pos_nonneg; lia).
    unfold Z.ltb. now destruct (x ?= y)%Z.
  - symmetry. apply Z.ltb_lt. apply Z.log2_lt_cancel. lia.
  - symmetry. apply Z.ltb_ge. apply Z.lt_le_incl, Z.log2_lt_cancel. lia.
Qed.

Lemma of_integer_not_negative (x : Z) :
  (0 <= x < 2 ^ 53)%Z -> (of_integer x <? 0) = false.
Proof.
  intros H. change 0 with (of_integer 0).
  rewrite of_integer_ltb by lia. apply Z.ltb_ge. lia.
Qed.

(** [|| 0] keeps a whole number below 2^53. *)
Lemma or_zero_of_integer (x : Z) :
  (0 <= x < 2 ^ 53)%Z -> JS.or_zero (of_integer x) = of_integer x.
Proof.
  intros H. destruct (Z.eq_dec x 0) as [-> | H0]; [ reflexivity | ].
  assert (Prim2SF (of_integer x) = S754_finite false (cman x) (cexp x)) as E
    by (apply Prim2SF_of_integer; lia).
  apply or_zero_id.
  - destruct (is_nan (of_integer x)) eqn:N; trivial.
    apply is_nan_Prim2SF in N. congruence.
  - intros E'. rewrite E' in E. discriminate E.
Qed.

Lemma shr_1_nonneg (mrs : shr_record) :
  (0 <= shr_m mrs)%Z -> (0 <= shr_m (shr_1 mrs))%Z.
Proof.
  destruct mrs as [m r s]. destruct m as [|[p|p|]|p]; simpl; lia.
Qed.

Lemma iter_shr_nonneg (p : positive) :
  forall mrs, (0 <= shr_m mrs)%Z -> (0 <= shr_m (iter_pos shr_1 p mrs))%Z.
Proof.
  induction p as [p IH|p IH|]; intros mrs H; cbn [iter_pos];
    auto using shr_1_nonneg.
Qed.

Lemma shr_fexp_nonneg (m e : Z) (l : location) :
  (0 <= m)%Z -> (0 <= shr_m (fst (shr_fexp prec emax m e l)))%Z.
Proof.
  intros H. unfold shr_fexp, shr.
  assert (0 <= shr_m (shr_record_of_loc m l))%Z as H0
    by (destruct l as [|[]]; exact H).
  destruct (fexp prec emax (Zdigits2 m + e) - e)%Z; simpl; trivial.
  now apply iter_shr_nonneg.
Qed.

(** Rounding a mantissa that is not negative gives a number. *)
Lemma binary_round_aux_number (s : bool) (m e : Z) (l : location) :
  (0 <= m)%Z -> binary_round_aux prec emax s m e l <> S754_nan.
Proof.
  intros H. unfold binary_round_aux.
  pose proof (shr_fexp_nonneg m e l H) as H1.
  destruct (shr_fexp prec emax m e l) as [mrs' e']. cbn [fst] in H1.
  assert (0 <= round_nearest_even (shr_m mrs') (loc_of_shr_record mrs'))%Z
    as H2.
  { unfold round_nearest_even.
    destruct (loc_of_shr_record mrs') as [|[]]; trivial;
      [ destruct (Z.even (shr_m mrs')) | ]; lia. }
  pose proof (shr_fexp_nonneg _ e' loc_Exact H2) as H3.
  destruct (shr_fexp prec emax _ e' loc_Exact) as [mrs'' e''].
  cbn [fst] in H3.
  destruct (shr_m mrs'') as [|q|q]; try discriminate; try lia.
  destruct (e'' <=? emax - prec)%Z; discriminate.
Qed.

Lemma SFdiv_core_nonneg (m1 m2 : positive) (e1 e2 : Z) :
  (0 <= fst (fst (SFdiv_core_binary prec emax (Zpos m1) e1 (Zpos m2) e2)))%Z.
Proof.
  unfold SFdiv_core_binary.
  set (s := (e1 - e2 - _)%Z).
  set (m' := match s with
             | Zpos _ => Z.shiftl (Zpos m1) s
             | Z0 => Zpos m1
             | Zneg _ => Z0
             end).
  assert (0 <= m')%Z as Hm
    by (unfold m'; destruct s; try lia; apply Z.shiftl_nonneg; lia).
  pose proof (Z.div_pos m' (Zpos m2) Hm ltac:(lia)) as Hq.
  unfold Z.div in Hq.
  destruct (Z.div_eucl m' (Zpos m2)) as [q r]. exact Hq.
Qed.

Lemma is_nan_false (x : float) :
  is_nan x = false <-> Prim2SF x <> S754_nan.
Proof.
  rewrite <- is_nan_Prim2SF. destruct (is_nan x); split; congruence.
Qed.

(** The ratio of two whole numbers below 2^53, times a hundred, is a
    number. *)
Lemma of_integer_ratio (k i : Z) :
  (0 <= k < 2 ^ 53)%Z -> (0 < i < 2 ^ 53)%Z ->
  is_nan (of_integer k / of_integer i * 100) = false.
Proof.
  intros Hk Hi. apply is_nan_false. rewrite mul_spec, div_spec.
  rewrite (Prim2SF_of_integer i) by assumption.
  assert (SF64div (Prim2SF (of_integer k))
            (S754_finite false (cman i) (cexp i)) <> S754_nan) as Hdiv.
  { destruct (Z.eq_dec k 0) as [-> | Hk0].
    - change (Prim2SF (of_integer 0)) with (S754_zero false). discriminate.
    - rewrite (Prim2SF_of_integer k) by lia. unfold SF64div, SFdiv.
      pose proof (SFdiv_core_nonneg (cman k) (cman i) (cexp k) (cexp i)) as H.
      destruct (SFdiv_core_binary prec emax (Zpos (cman k)) (cexp k)
                  (Zpos (cman i)) (cexp i)) as [[mz ez] lz].
      now apply binary_round_aux_number. }
  destruct (SF64div _ _) as [s|s| |s m e]; try congruence.
  - discriminate.
  - discriminate.
  - unfold SF64mul. 
    destruct (Prim2SF 100) as [s'|s'| |s' m' e'] eqn:E; try discriminate.
    simpl. now apply binary_round_aux_number.
Qed.

Lemma of_integer_number (x : Z) :
  (0 <= x < 2 ^ 53)%Z -> is_nan (of_integer x) = false.
Proof.
  intros H. apply is_nan_false.
  destruct (Z.eq_dec x 0) as [-> | H0]; [ discriminate | ].
  rewrite Prim2SF_of_integer by lia. discriminate.
Qed.

Lemma of_integer_ratio_percent (k i : Z) :
  (0 <= k < 2 ^ 53)%Z -> (0 <= i < 2 ^ 53)%Z ->
  is_nan (ratio_percent (of_integer k) (of_integer i)) = false.
Proof.
  intros Hk Hi. unfold ratio_percent.
  destruct (0 <? of_integer i) eqn:E; [ | reflexivity ].
  apply of_integer_ratio; trivial.
  change 0 with (of_integer 0) in E. rewrite of_integer_ltb in E by lia.
  apply Z.ltb_lt in E. lia.
Qed.

End SafeIntegers.

(** ** The text of [toFixed(2)] *)

Section FixedText.

Lemma all_digits_app (s t : string) :
  all_digits (s ++ t) = all_digits s && all_digits t.
Proof.
  induction s as [|a s IH]; simpl; trivial.
  now rewrite IH, andb_assoc.
Qed.

Lemma length_app (s t : string) :
  String.length (s ++ t) = (String.length s + String.length t)%nat.
Proof. induction s as [|a s IH]; simpl; auto. Qed.

Lemma zeros_digits (k : nat) :
  all_digits (JS.zeros k) = true /\ String.length (JS.zeros k) = k.
Proof. induction k as [|k [IH1 IH2]]; simpl; auto. Qed.

Lemma uint_digits (d : Decimal.uint) :
  all_digits (NilEmpty.string_of_uint d) = true.
Proof. induction d; simpl; trivial. Qed.

Lemma digits_all_digits (n : Z) :
  all_digits (JS.digits n) = true /\ (0 < String.length (JS.digits n))%nat.
Proof.
  unfold JS.digits, NilZero.string_of_uint.
  destruct (N.to_uint (Z.to_N n)) eqn:E;
    (split; [ try reflexivity; rewrite <- E; apply uint_digits
            | simpl; lia ]).
Qed.

(** Cutting a text in two. *)
Lemma substring_split (s : string) (n f : nat) :
  String.length s = (n + f)%nat ->
  substring 0 n s ++ substring n f s = s
  /\ String.length (substring 0 n s) = n
  /\ String.length (substring n f s) = f.
Proof.
  revert s. induction n as [|n IH]; intros s Hlen; simpl in Hlen.
  - assert (substring 0 f s = s /\ String.length (substring 0 f s) = f)
      as [H1 H2].
    { revert s Hlen. induction f as [|f IHf]; intros [|a s] Hlen;
        simpl in *; try discriminate; auto.
      injection Hlen as Hlen. destruct (IHf s Hlen) as [H1 H2].
      now rewrite H1, Hlen. }
    destruct s; simpl; rewrite ?H1, ?H2; auto.
  - destruct s as [|a s]; [ discriminate | ].
    injection Hlen as Hlen. destruct (IH s Hlen) as (H1 & H2 & H3).
    simpl. rewrite H1, H2, H3. auto.
Qed.

Lemma digit_not_point (a : ascii) :
  is_digit a = true -> Ascii.eqb a "." = false /\ Ascii.eqb a "-" = false.
Proof.
  unfold is_digit. intros H. apply andb_prop in H as [H _].
  split; apply Ascii.eqb_neq; intros ->; vm_compute in H; discriminate.
Qed.

Lemma split_point_app (whole frac : string) :
  all_digits whole = true ->
  split_point (whole ++ String "." frac) = Some (whole, frac).
Proof.
  induction whole as [|a w IH]; simpl; trivial.
  intros H. apply andb_prop in H as [Ha Hw].
  destruct (digit_not_point a Ha) as [-> _]. now rewrite IH.
Qed.

(** [place_point 2] on the digits of a number gives a fixed text. *)
Lemma place_point_fixed (m : string) :
  all_digits m = true -> (0 < String.length m)%nat ->
  unsigned_fixed 2 (JS.place_point 2 m) = true
  /\ exists a rest, JS.place_point 2 m = String a rest /\ is_digit a = true.
Proof.
  intros Hd Hlen. unfold JS.place_point.
  set (k := String.length m).
  set (m' := if (k <=? 2)%nat then JS.zeros (2 + 1 - k) ++ m else m).
  assert (all_digits m' = true) as Hd'.
  { unfold m'. destruct (k <=? 2)%nat; trivial.
    rewrite all_digits_app, Hd. now destruct (zeros_digits (2 + 1 - k)) as [-> _]. }
  assert (3 <= String.length m')%nat as Hlen'.
  { unfold m'. destruct (k <=? 2)%nat eqn:E.
    - rewrite length_app. destruct (zeros_digits (2 + 1 - k)) as [_ ->].
      apply Nat.leb_le in E. fold k. lia.
    - apply Nat.leb_gt in E. fold k. lia. }
  set (k' := String.length m') in *.
  destruct (substring_split m' (k' - 2) 2) as (Hs & Hw & Hf); [ lia | ].
  set (whole := substring 0 (k' - 2) m') in *.
  set (frac := substring (k' - 2) 2 m') in *.
  assert (all_digits whole = true /\ all_digits frac = true) as [Hdw Hdf].
  { rewrite <- Hs, all_digits_app in Hd'. now apply andb_prop in Hd'. }
  split.
  - unfold unsigned_fixed.
    change (whole ++ "." ++ frac) with (whole ++ String "." frac).
    rewrite split_point_app by assumption.
    rewrite Hw, Hf, Hdw, Hdf.
    replace (0 <? k' - 2)%nat with true
      by (symmetry; apply Nat.ltb_lt; lia).
    reflexivity.
  - destruct whole as [|a w] eqn:E; [ simpl in Hw; lia | ].
    exists a, (w ++ "." ++ frac)%string. split; trivial.
    simpl in Hdw. now apply andb_prop in Hdw.
Qed.

(** In its fixed range, [toFixed(2)] gives a text with two decimals. *)
Lemma toFixed_two_decimals (x : float) :
  fixed_range x = true -> two_decimals (JS.toFixed 2 x) = true.
Proof.
  unfold fixed_range, JS.toFixed.
  destruct (Prim2SF x) as [s|s| |s m e]; try discriminate.
  - intros _. reflexivity.
  - intros H. apply negb_true_iff in H. rewrite H.
    destruct (digits_all_digits (JS.nearest_scaled 2 m e)) as [Hd Hl].
    destruct (place_point_fixed _ Hd Hl) as [Hfix (a & rest & Hp & Ha)].
    destruct s.
    + exact Hfix.
    + change (two_decimals
                (JS.Text (JS.place_point 2
                            (JS.digits (JS.nearest_scaled 2 m e)))) = true).
      rewrite Hp in *. unfold two_decimals.
      now destruct (digit_not_point a Ha) as [_ ->].
Qed.

End FixedText.

(** ** Facts about the collection *)

Section CollectionFacts.

Lemma by_id_eq (id : string) (c : Campaign) :
  by_id id c = true -> _id c = id.
Proof. unfold by_id. apply String.eqb_eq. Qed.

Lemma findOne_some (filter : Campaign -> bool) (db : Collection)
    (c : Campaign) :
  findOne filter db = Some c -> filter c = true /\ In c db.
Proof.
  unfold findOne. intros H. split.
  - apply (find_some _ _ H).
  - apply (find_some _ _ H).
Qed.

Lemma update_first_found (filter : Campaign -> bool)
    (f : Campaign -> Campaign) (db : Collection) (c : Campaign) :
  findOne filter db = Some c -> filter (f c) = true ->
  findOne filter (update_first filter f db) = Some (f c).
Proof.
  unfold findOne. induction db as [|d rest IH]; simpl; [ discriminate | ].
  destruct (filter d) eqn:E.
  - intros [= ->] Hf. simpl. now rewrite Hf.
  - intros H Hf. simpl. rewrite E. now apply IH.
Qed.

Lemma update_first_Forall (P : Campaign -> Prop) (filter : Campaign -> bool)
    (f : Campaign -> Campaign) (db : Collection) :
  (forall c, In c db -> P c -> P (f c)) ->
  Forall P db -> Forall P (update_first filter f db).
Proof.
  induction db as [|d rest IH]; simpl; intros Hf Hall; trivial.
  inversion Hall as [|? ? Hd Hrest]; subst.
  destruct (filter d); constructor; auto.
Qed.

Lemma delete_first_Forall (P : Campaign -> Prop) (filter : Campaign -> bool)
    (db : Collection) :
  Forall P db -> Forall P (delete_first filter db).
Proof.
  induction db as [|d rest IH]; simpl; intros Hall; trivial.
  inversion Hall; subst. destruct (filter d); auto.
Qed.


End CollectionFacts.

(** ** The save hook *)

Section SaveHook.

(** The hook touches [ctr] only. *)
Lemma pre_save_counters (c : Campaign) :
  _id (pre_save c) = _id c
  /\ impressions (analytics (pre_save c)) = impressions (analytics c)
  /\ clicks (analytics (pre_save c)) = clicks (analytics c).
Proof.
  unfold pre_save. destruct (0 <? impressions (analytics c)); auto.
Qed.

(** With impressions above zero the hook writes the ratio. *)
Lemma pre_save_positive (c : Campaign) :
  (0 <? impressions (analytics c)) = true ->
  ctr (analytics (pre_save c))
  = clicks (analytics c) / impressions (analytics c) * 100.
Proof. unfold pre_save. now intros ->. Qed.

(** Otherwise it leaves the document as it is. *)
Lemma pre_save_not_positive (c : Campaign) :
  (0 <? impressions (analytics c)) = false -> pre_save c = c.
Proof. unfold pre_save. now intros ->. Qed.

(** A document whose [ctr] is the ratio already passes unchanged. *)
Lemma pre_save_fixed (c : Campaign) (i k : float) :
  pre_save (set_analytics c (mkAnalytics i k (ratio_percent k i)))
  = set_analytics c (mkAnalytics i k (ratio_percent k i)).
Proof.
  unfold pre_save, ratio_percent. simpl.
  destruct (0 <? i); reflexivity.
Qed.

(** The hook keeps a coherent document coherent. *)
Lemma pre_save_coherent (c : Campaign) :
  coherent (analytics c) -> coherent (analytics (pre_save c)).
Proof.
  intros [H1 H2]. unfold pre_save.
  destruct (0 <? impressions (analytics c)) eqn:E; [ | now split ].
  split; simpl; trivial. unfold ratio_percent. now rewrite E.
Qed.

End SaveHook.

(** ** The analytics update, case by case *)

Section AnalyticsUpdate.

Lemma is_number_spec (v : JS.value) :
  is_number v = true <-> exists x, v = JS.VNumber x.
Proof.
  split.
  - destruct v; try discriminate. now exists x.
  - now intros [x ->].
Qed.

Variables (id : string) (db : Collection).

Lemma update_not_numbers (req : AnalyticsBody) :
  is_number (body_impressions req) = false
  \/ is_number (body_clicks req) = false ->
  updateCampaignAnalytics id req db = (db, must_be_numbers).
Proof.
  unfold updateCampaignAnalytics.
  destruct (body_impressions req), (body_clicks req);
    intros [H | H]; try reflexivity; discriminate.
Qed.

Lemma update_negative (imp clk : float) :
  (imp <? 0) = true \/ (clk <? 0) = true ->
  updateCampaignAnalytics id
    (mkAnalyticsBody (JS.VNumber imp) (JS.VNumber clk)) db
  = (db, cannot_be_negative).
Proof.
  unfold updateCampaignAnalytics. simpl.
  intros [-> | ->]; [ reflexivity | now rewrite orb_true_r ].
Qed.

Lemma update_missing (imp clk : float) :
  (imp <? 0) = false -> (clk <? 0) = false ->
  findOne (by_id id) db = None ->
  updateCampaignAnalytics id
    (mkAnalyticsBody (JS.VNumber imp) (JS.VNumber clk)) db
  = (db, campaign_not_found).
Proof.
  unfold updateCampaignAnalytics. simpl. now intros -> -> ->.
Qed.

Lemma update_exceeds (imp clk : float) (campaign : Campaign) :
  (imp <? 0) = false -> (clk <? 0) = false ->
  findOne (by_id id) db = Some campaign ->
  let a := incremented (analytics campaign) imp clk in
  (impressions a <? clicks a) = true ->
  updateCampaignAnalytics id
    (mkAnalyticsBody (JS.VNumber imp) (JS.VNumber clk)) db
  = (db, clicks_exceed_impressions).
Proof.
  unfold updateCampaignAnalytics, incremented. simpl.
  now intros -> -> -> ->.
Qed.

Lemma update_refused (imp clk : float) (campaign : Campaign) :
  (imp <? 0) = false -> (clk <? 0) = false ->
  findOne (by_id id) db = Some campaign ->
  let a := incremented (analytics campaign) imp clk in
  (impressions a <? clicks a) = false ->
  validate a = false ->
  updateCampaignAnalytics id
    (mkAnalyticsBody (JS.VNumber imp) (JS.VNumber clk)) db
  = (db, error_updating_analytics).
Proof.
  unfold updateCampaignAnalytics, incremented. simpl.
  intros -> -> Hfind Hle Hval. rewrite Hfind. simpl. rewrite Hle.
  unfold save. cbn [analytics set_analytics]. now rewrite Hval.
Qed.

Lemma update_accepted (imp clk : float) (campaign : Campaign) :
  (imp <? 0) = false -> (clk <? 0) = false ->
  findOne (by_id id) db = Some campaign ->
  let a := incremented (analytics campaign) imp clk in
  (impressions a <? clicks a) = false ->
  validate a = true ->
  updateCampaignAnalytics id
    (mkAnalyticsBody (JS.VNumber imp) (JS.VNumber clk)) db
  = (update_first (by_id id) (fun _ => set_analytics campaign a) db,
     analytics_updated a).
Proof.
  unfold updateCampaignAnalytics, incremented. simpl.
  intros -> -> Hfind Hle Hval. rewrite Hfind. simpl. rewrite Hle.
  unfold save. cbn [analytics set_analytics]. rewrite Hval.
  rewrite pre_save_fixed. simpl.
  destruct (findOne_some _ _ _ Hfind) as [Hid _].
  apply by_id_eq in Hid. now rewrite Hid.
Qed.

End AnalyticsUpdate.

Lemma update_cases (id : string) (req : AnalyticsBody) (db : Collection) :
  update_outcome id req db (updateCampaignAnalytics id req db).
Proof.
  destruct req as [i c].
  destruct (is_number i) eqn:Hi;
    [ | rewrite update_not_numbers by (now left); constructor; now left ].
  destruct (is_number c) eqn:Hc;
    [ | rewrite update_not_numbers by (now right); constructor; now right ].
  apply is_number_spec in Hi, Hc. destruct Hi as [imp ->], Hc as [clk ->].
  destruct (imp <? 0) eqn:Himp;
    [ rewrite update_negative by (now left);
      now apply (Outcome_negative _ _ _ imp clk); auto | ].
  destruct (clk <? 0) eqn:Hclk;
    [ rewrite update_negative by (now right);
      now apply (Outcome_negative _ _ _ imp clk); auto | ].
  destruct (findOne (by_id id) db) as [campaign|] eqn:Hfind;
    [ | rewrite update_missing by assumption;
        now apply (Outcome_missing _ _ _ imp clk) ].
  destruct (impressions (incremented (analytics campaign) imp clk)
              <? clicks (incremented (analytics campaign) imp clk)) eqn:Hcmp.
  - rewrite (update_exceeds _ _ _ _ campaign) by assumption.
    now apply (Outcome_exceeds _ _ _ imp clk campaign).
  - destruct (validate (incremented (analytics campaign) imp clk)) eqn:Hval.
    + rewrite (update_accepted _ _ _ _ campaign) by assumption.
      now apply (Outcome_accepted _ _ _ imp clk campaign).
    + rewrite (update_refused _ _ _ _ campaign) by assumption.
      now apply (Outcome_refused _ _ _ imp clk campaign).
Qed.

Lemma incremented_nan_impressions (a : Analytics) (clk : float) :
  incremented a nan clk
  = mkAnalytics nan (JS.or_zero (clicks a) + clk) 0.
Proof.
  unfold incremented, ratio_percent. simpl.
  now rewrite add_nan_r, ltb_nan_r.
Qed.

Lemma incremented_nan_clicks (a : Analytics) (imp : float) :
  incremented a imp nan
  = mkAnalytics (JS.or_zero (impressions a) + imp) nan
      (if 0 <? JS.or_zero (impressions a) + imp then nan else 0).
Proof.
  unfold incremented, ratio_percent. simpl.
  rewrite add_nan_r, div_nan_l. reflexivity.
Qed.

(** ** Two updates in a row *)

Section Sequential.


End Sequential.

(** ** The invariant over the requests *)

Section Invariant.

Lemma consistent_incremented (a : Analytics) (imp clk : float) :
  (impressions (incremented a imp clk) <? clicks (incremented a imp clk))
  = false ->
  consistent (incremented a imp clk).
Proof. intros H. split; [ exact H | reflexivity ]. Qed.

Lemma validate_spec (a : Analytics) :
  validate a = true
  <-> is_nan (impressions a) = false /\ is_nan (clicks a) = false
      /\ is_nan (ctr a) = false.
Proof.
  unfold validate.
  destruct (is_nan (impressions a)), (is_nan (clicks a)), (is_nan (ctr a));
    simpl; intuition congruence.
Qed.

(** Whole-number counters below 2^53 and their ratio pass validation. *)
Lemma validate_of_integer (i k : Z) :
  (0 <= i < 2 ^ 53)%Z -> (0 <= k < 2 ^ 53)%Z ->
  validate (mkAnalytics (of_integer i) (of_integer k)
              (ratio_percent (of_integer k) (of_integer i))) = true.
Proof.
  intros Hi Hk. apply validate_spec. cbn [impressions clicks ctr].
  split; [ now apply of_integer_number | split ].
  - now apply of_integer_number.
  - now apply of_integer_ratio_percent.
Qed.

(** What passes the comparison and the validation is coherent. *)
Lemma coherent_incremented (a : Analytics) (imp clk : float) :
  (impressions (incremented a imp clk) <? clicks (incremented a imp clk))
  = false ->
  validate (incremented a imp clk) = true ->
  coherent (incremented a imp clk).
Proof.
  intros Hcmp Hval. apply validate_spec in Hval as (Hi & Hc & _).
  split; [ now apply not_gt_le | reflexivity ].
Qed.

Lemma coherent_default : coherent default_analytics.
Proof. split; reflexivity. Qed.

Lemma findOneAndUpdate_coherent (filter : Campaign -> bool)
    (u : UpdateData) (db : Collection) :
  upd_analytics u = None ->
  all_coherent db -> all_coherent (snd (findOneAndUpdate filter u db)).
Proof.
  intros Hu Hall. unfold findOneAndUpdate.
  destruct (findOne filter db) as [found|]; simpl; trivial.
  apply update_first_Forall; trivial.
  intros c _ Hc. unfold apply_update. simpl. now rewrite Hu.
Qed.

Lemma create_coherent (fresh_id userId url : string) (b : CreateBody)
    (db db' : Collection) (doc : Campaign) :
  create fresh_id userId url b db = Some (doc, db') ->
  all_coherent db -> all_coherent db'.
Proof.
  unfold create.
  destruct (required (new_campaignName b)); try discriminate.
  destruct (required (new_campaignDescription b)); try discriminate.
  destruct (required (new_campaignType b)) as [type|]; try discriminate.
  destruct (required (new_headline b)); try discriminate.
  destruct (required (new_body b)); try discriminate.
  destruct (required (new_callToAction b)); try discriminate.
  destruct (required (Some url)); try discriminate.
  destruct (mem_string type campaignType_enum); try discriminate.
  intros [= <- <-] Hall. apply Forall_app. split; trivial.
  constructor; [ | constructor ]. apply coherent_default.
Qed.

(** Each request that does not write its body keeps the collection
    coherent. *)
Lemma handle_coherent (r : request) (db : Collection) :
  writes_body r = false ->
  all_coherent db -> all_coherent (fst (handle r db)).
Proof.
  destruct r as [fresh_id userId file b | id userId file u | id userId
                | id new_status | id b | id u]; simpl; intros Hr Hall;
    try discriminate.
  - unfold createCampaign. destruct file as [url|]; trivial.
    destruct (create fresh_id userId url b db) as [[doc db']|] eqn:E;
      trivial.
    simpl. now apply (create_coherent _ _ _ _ _ _ _ E).
  - unfold deleteCampaign.
    destruct (findOne (by_id_and_advertiser id userId) db); trivial.
    simpl. now apply delete_first_Forall.
  - unfold updateCampaignStatus.
    destruct new_status as [ | |b|x|s| ]; trivial.
    destruct (mem_string s validStatuses); trivial.
    pose proof (findOneAndUpdate_coherent (by_id id) (status_only s) db
                  eq_refl Hall) as H.
    destruct (findOneAndUpdate (by_id id) (status_only s) db)
      as [[c|] db']; trivial.
  - destruct (update_cases id b db); simpl; trivial.
    apply update_first_Forall; trivial.
    intros c _ _. simpl. now apply coherent_incremented.
Qed.

Lemma run_coherent (rs : list request) (db : Collection) :
  forallb (fun r => negb (writes_body r)) rs = true ->
  all_coherent db -> all_coherent (run rs db).
Proof.
  revert db. induction rs as [|r rs IH]; simpl; intros db Hrs Hall; trivial.
  apply andb_prop in Hrs as [Hr Hrs]. apply negb_true_iff in Hr.
  apply IH; trivial. now apply handle_coherent.
Qed.

End Invariant.

(** ** Sums of whole-number counters *)

Section Dashboard.

Lemma fold_sum_of_integer (field : Analytics -> float) (cs : list Campaign) :
  forall (ns : list Z) (acc : Z),
    map (fun c => field (analytics c)) cs = map of_integer ns ->
    Forall (fun n => (0 <= n)%Z) ns ->
    (0 <= acc)%Z -> (acc + total ns < 2 ^ 53)%Z ->
    fold_left (fun sum campaign => sum + field (analytics campaign)) cs
      (of_integer acc)
    = of_integer (acc + total ns).
Proof.
  induction cs as [|c cs IH]; intros [|n ns] acc Hmap Hpos Hacc Hsum;
    try discriminate; simpl in *.
  - now rewrite Z.add_0_r.
  - injection Hmap as Hc Hmap. inversion Hpos as [|? ? Hn Hns]; subst.
    assert (0 <= total ns)%Z as Ht
      by (clear - Hns; induction Hns; simpl; lia).
    rewrite Hc, of_integer_add by lia.
    rewrite IH with (ns := ns) by (trivial; lia).
    f_equal. lia.
Qed.

(** Summing whole-number counters is exact while the total is below 2^53. *)
Lemma reduce_sum_counts (field : Analytics -> float) (cs : list Campaign)
    (ns : list Z) :
  counts field cs ns -> reduce_sum field cs = of_integer (total ns).
Proof.
  intros (Hmap & Hpos & Hsum). unfold reduce_sum.
  change 0 with (of_integer 0).
  now rewrite (fold_sum_of_integer field cs ns 0).
Qed.

Lemma total_nonneg (ns : list Z) :
  Forall (fun n => (0 <= n)%Z) ns -> (0 <= total ns)%Z.
Proof. induction 1; simpl; lia. Qed.

End Dashboard.

(** * Main results *)

(** ** Consistency of the stored analytics *)

(** C1 (counterexample).  After a creation, [updateCampaignDetails] with a
    body whose [analytics] are 1 impression, 5 clicks and a [ctr] of 42 is
    answered 200 and stores them as given: more clicks than impressions, and
    a [ctr] that is not the ratio of the counters (500). *)
Lemma updateCampaignDetails_breaks_consistency :
  let body :=
    mkUpdateData None None None None None None None None None
      (Some (mkAnalytics 1 5 42)) in
  let db :=
    run [CreateCampaign "c1" "u1" (Some "https://img.example/c1.png")
           sample_request] [] in
  all_coherent db
  /\ code (snd (updateCampaignDetails "c1" body db)) = 200%nat
  /\ fst (updateCampaignDetails "c1" body db) = [sample (mkAnalytics 1 5 42)]
  /\ (clicks (mkAnalytics 1 5 42) <=? impressions (mkAnalytics 1 5 42)) = false
  /\ ratio_percent 5 1 = 500
  /\ ~ coherent (mkAnalytics 1 5 42).
Proof.
  simpl. split; [ | split; [ | split; [ | split; [ | split ] ] ] ];
    try reflexivity.
  - repeat constructor.
  - intros [H _]. discriminate H.
Qed.

(** C1 (amended).  The save hook keeps a coherent document coherent, and
    after any sequence of [createCampaign], [deleteCampaign],
    [updateCampaignStatus] and [updateCampaignAnalytics] requests, starting
    from the empty collection, every stored campaign has clicks that are at
    most its impressions and a [ctr] that is the ratio re-derived from the
    two counters.  [updateCampaign] and [updateCampaignDetails] write what
    the request body says, unchecked, and are left out. *)
Theorem analytics_consistent_without_raw_writes (rs : list request) :
  forallb (fun r => negb (writes_body r)) rs = true ->
  (forall c, coherent (analytics c) -> coherent (analytics (pre_save c)))
  /\ (forall c, In c (run rs []) ->
        (clicks (analytics c) <=? impressions (analytics c)) = true
        /\ ctr (analytics c)
           = if 0 <? impressions (analytics c)
             then clicks (analytics c) / impressions (analytics c) * 100
             else 0).
Proof.
  intros Hrs. split; [ exact pre_save_coherent | ].
  intros c Hin.
  pose proof (run_coherent rs [] Hrs (Forall_nil _)) as Hall.
  unfold all_coherent in Hall. rewrite Forall_forall in Hall.
  exact (Hall c Hin).
Qed.

(** A creation, 100 impressions and 10 clicks, a pause, then 50 impressions
    and 4 clicks: the stored campaign has 150 and 14, and the ratio. *)
Lemma analytics_consistent_without_raw_writes_witness :
  let rs :=
    [CreateCampaign "c1" "u1" (Some "https://img.example/c1.png")
       sample_request;
     UpdateCampaignAnalytics "c1" (increment 100 10);
     UpdateCampaignStatus "c1" (JS.VString "PAUSED");
     UpdateCampaignAnalytics "c1" (increment 50 4)] in
  exists c,
    run rs [] = [c]
    /\ impressions (analytics c) = 150
    /\ clicks (analytics c) = 14
    /\ (clicks (analytics c) <=? impressions (analytics c)) = true
    /\ ctr (analytics c) = 14 / 150 * 100.
Proof.
  intros rs.
  set (c := mkCampaign "c1" "u1" "Spring sale" "Seasonal offer" "BANNER"
              "Save now" "Everything must go" "Shop"
              "https://img.example/c1.png" "PAUSED"
              (mkAnalytics 150 14 (14 / 150 * 100))).
  exists c.
  destruct (proj2 (analytics_consistent_without_raw_writes rs eq_refl)
              c (or_introl eq_refl)) as (Hle & Hctr).
  split; [ reflexivity | split; [ reflexivity | split; [ reflexivity | ] ] ].
  split; [ exact Hle | exact Hctr ].
Defined.

(** ** The [ctr] of every saved document *)



(** ** Validation order *)

(** C3.  [updateCampaignAnalytics] tests in this order: an increment that is
    not a number is answered with "must be numbers" (the specification's
    [InvalidInputError]) whatever else holds; otherwise a negative increment
    is answered with "cannot be negative" ([InvalidInputError] again),
    whatever the sums would be; otherwise, for the document found, the new
    totals are the stored counters (read through [|| 0]) plus the increments,
    and the answer is "clicks cannot be greater than impressions"
    ([InvariantViolationError]) exactly when the new clicks exceed the new
    impressions.  An update that is answered 200 passed that test with
    totals and a ratio that are not NaN, and stores and reports these
    totals; when the test is passed and one of the three is NaN the save
    fails and the answer is 500 from the [catch], nothing stored.  For
    whole-number counters and increments below 2^53 the totals are the exact
    sums, and the third answer is given exactly when [K + B > I + A]. *)
Theorem updateCampaignAnalytics_validation_order
    (id : string) (db : Collection) (i c : JS.value) :
  let result := updateCampaignAnalytics id (mkAnalyticsBody i c) db in
  (is_number i = false \/ is_number c = false ->
   result = (db, must_be_numbers))
  /\ (forall imp clk,
        i = JS.VNumber imp -> c = JS.VNumber clk ->
        (imp <? 0) = true \/ (clk <? 0) = true ->
        result = (db, cannot_be_negative))
  /\ (forall imp clk campaign,
        i = JS.VNumber imp -> c = JS.VNumber clk ->
        (imp <? 0) = false -> (clk <? 0) = false ->
        findOne (by_id id) db = Some campaign ->
        let newImpressions :=
          JS.or_zero (impressions (analytics campaign)) + imp in
        let newClicks := JS.or_zero (clicks (analytics campaign)) + clk in
        let stored :=
          mkAnalytics newImpressions newClicks
            (ratio_percent newClicks newImpressions) in
        (snd result = clicks_exceed_impressions
         <-> (newImpressions <? newClicks) = true)
        /\ (code (snd result) = 200%nat ->
            (newImpressions <? newClicks) = false
            /\ validate stored = true
            /\ result
               = (update_first (by_id id)
                    (fun _ => set_analytics campaign stored) db,
                  analytics_updated stored))
        /\ ((newImpressions <? newClicks) = false ->
            validate stored = false ->
            result = (db, error_updating_analytics)))
  /\ (forall (I K A B : Z) campaign,
        i = JS.VNumber (of_integer A) -> c = JS.VNumber (of_integer B) ->
        findOne (by_id id) db = Some campaign ->
        impressions (analytics campaign) = of_integer I ->
        clicks (analytics campaign) = of_integer K ->
        (0 <= I)%Z -> (0 <= K)%Z -> (0 <= A)%Z -> (0 <= B)%Z ->
        (I + A < safe_bound)%Z -> (K + B < safe_bound)%Z ->
        (snd result = clicks_exceed_impressions <-> (I + A < K + B)%Z)).
Proof.
  intros result. unfold result. split; [ | split; [ | split ] ].
  - intros H. now apply update_not_numbers.
  - intros imp clk -> ->. apply update_negative.
  - intros imp clk campaign -> -> Himp Hclk Hfind.
    set (newImpressions :=
           JS.or_zero (impressions (analytics campaign)) + imp).
    set (newClicks := JS.or_zero (clicks (analytics campaign)) + clk).
    set (stored := mkAnalytics newImpressions newClicks
                     (ratio_percent newClicks newImpressions)).
    cbv zeta.
    destruct (newImpressions <? newClicks) eqn:Hcmp.
    + rewrite (update_exceeds _ _ _ _ campaign) by assumption. simpl.
      split; [ tauto | split; discriminate ].
    + destruct (validate stored) eqn:Hval.
      * rewrite (update_accepted _ _ _ _ campaign) by assumption. simpl.
        split; [ split; discriminate | split; [ auto | discriminate ] ].
      * rewrite (update_refused _ _ _ _ campaign) by assumption. simpl.
        split; [ split; discriminate | split; [ discriminate | auto ] ].
  - unfold safe_bound.
    intros I K A B campaign -> -> Hfind Himp Hclk HI HK HA HB HIA HKB.
    assert (incremented (analytics campaign) (of_integer A) (of_integer B)
            = mkAnalytics (of_integer (I + A)) (of_integer (K + B))
                (ratio_percent (of_integer (K + B)) (of_integer (I + A))))
      as E.
    { unfold incremented. rewrite Himp, Hclk.
      rewrite !or_zero_of_integer, !of_integer_add by lia. reflexivity. }
    destruct (Z.ltb_spec (I + A) (K + B)) as [Hlt | Hge].
    + rewrite (update_exceeds _ _ _ _ campaign);
        try (apply of_integer_not_negative; lia); trivial.
      * simpl. tauto.
      * rewrite E. cbn [impressions clicks].
        rewrite of_integer_ltb by lia. now apply Z.ltb_lt.
    + rewrite (update_accepted _ _ _ _ campaign);
        try (apply of_integer_not_negative; lia); trivial.
      * simpl. split; [ discriminate | lia ].
      * rewrite E. cbn [impressions clicks].
        rewrite of_integer_ltb by lia. now apply Z.ltb_ge.
      * rewrite E. apply validate_of_integer; lia.
Qed.

(** The specification's examples: the increment [(-1, 0)] is a negative
    increment; on the counters [10] and [5] the increment [(0, 20)] makes the
    clicks exceed the impressions; [(-1, 20)] does so too but is reported as
    negative; and a text in place of a number is reported first.  Two
    infinite increments pass the three tests and are answered 500. *)
Lemma updateCampaignAnalytics_validation_order_witness :
  let db := [sample (mkAnalytics 10 5 50)] in
  updateCampaignAnalytics "c1" (increment (-1) 0) db = (db, cannot_be_negative)
  /\ snd (updateCampaignAnalytics "c1" (increment 0 20) db)
     = clicks_exceed_impressions
  /\ updateCampaignAnalytics "c1" (increment (-1) 20) db
     = (db, cannot_be_negative)
  /\ updateCampaignAnalytics "c1"
       (mkAnalyticsBody (JS.VString "many") (JS.VNumber (-1))) db
     = (db, must_be_numbers)
  /\ (snd (updateCampaignAnalytics "c1" (increment 3 9) db)
      = clicks_exceed_impressions <-> (10 + 3 < 5 + 9)%Z)
  /\ snd (updateCampaignAnalytics "c1" (increment infinity infinity) db)
     = error_updating_analytics.
Proof.
  intros db. split; [ | split; [ | split; [ | split; [ | split ] ] ] ].
  - apply (proj1 (proj2 (updateCampaignAnalytics_validation_order
                           "c1" db (JS.VNumber (-1)) (JS.VNumber 0)))
             (-1) 0 eq_refl eq_refl).
    left. reflexivity.
  - apply (proj1 (proj1 (proj2 (proj2
                                  (updateCampaignAnalytics_validation_order
                                     "c1" db (JS.VNumber 0) (JS.VNumber 20))))
                    0 20 (sample (mkAnalytics 10 5 50))
                    eq_refl eq_refl eq_refl eq_refl eq_refl)).
    reflexivity.
  - apply (proj1 (proj2 (updateCampaignAnalytics_validation_order
                           "c1" db (JS.VNumber (-1)) (JS.VNumber 20)))
             (-1) 20 eq_refl eq_refl).
    left. reflexivity.
  - apply (proj1 (updateCampaignAnalytics_validation_order
                    "c1" db (JS.VString "many") (JS.VNumber (-1)))).
    left. reflexivity.
  - apply (proj2 (proj2 (proj2 (updateCampaignAnalytics_validation_order
                                  "c1" db (JS.VNumber 3) (JS.VNumber 9))))
             10%Z 5%Z 3%Z 9%Z (sample (mkAnalytics 10 5 50)));
      try reflexivity; unfold safe_bound; lia.
  - exact (f_equal snd
             (proj2 (proj2 (proj1 (proj2 (proj2
                (updateCampaignAnalytics_validation_order
                   "c1" db (JS.VNumber infinity) (JS.VNumber infinity))))
                infinity infinity (sample (mkAnalytics 10 5 50))
                eq_refl eq_refl eq_refl eq_refl eq_refl))
              eq_refl eq_refl)).
Defined.

(** ** Rejections change nothing *)

(** C4.  Whenever [updateCampaignAnalytics] does not answer 200, the
    collection it returns is the one it was given: no counter and no [ctr]
    of any document is written on a path that rejects. *)
Theorem rejected_update_changes_nothing
    (id : string) (req : AnalyticsBody) (db : Collection) :
  code (snd (updateCampaignAnalytics id req db)) <> 200%nat ->
  fst (updateCampaignAnalytics id req db) = db.
Proof.
  destruct (update_cases id req db); simpl; intros Hcode; trivial.
  now contradiction Hcode.
Qed.

Lemma rejected_update_changes_nothing_witness :
  let db := [sample (mkAnalytics 10 5 50)] in
  fst (updateCampaignAnalytics "c1" (increment 0 20) db) = db
  /\ fst (updateCampaignAnalytics "c1" (increment (-1) 0) db) = db
  /\ fst (updateCampaignAnalytics "c1"
            (mkAnalyticsBody JS.VUndefined (JS.VNumber 3)) db) = db
  /\ fst (updateCampaignAnalytics "c1" (increment nan 0) db) = db.
Proof.
  intros db. split; [ | split; [ | split ] ].
  - apply (rejected_update_changes_nothing "c1" (increment 0 20) db).
    vm_compute. discriminate.
  - apply (rejected_update_changes_nothing "c1" (increment (-1) 0) db).
    vm_compute. discriminate.
  - apply (rejected_update_changes_nothing "c1"
             (mkAnalyticsBody JS.VUndefined (JS.VNumber 3)) db).
    vm_compute. discriminate.
  - apply (rejected_update_changes_nothing "c1" (increment nan 0) db).
    vm_compute. discriminate.
Defined.

(** ** Two increments against one *)




(** ** The worked increment *)



(** ** What an accepted update reports *)

(** C7 (counterexample).  Once a request body has written clicks of minus
    infinity (JSON's [-1e999]) onto a document, the increment [(1, 0)] is
    accepted with a [ctr] of minus infinity, and the answer carries the text
    ["-Infinity"], which has no decimal places. *)
Lemma minus_infinity_is_reported_without_decimals :
  let body :=
    mkUpdateData None None None None None None None None None
      (Some (mkAnalytics 0 neg_infinity 0)) in
  updateCampaignAnalytics "c1" (increment 1 0)
    (fst (updateCampaignDetails "c1" body [sample (mkAnalytics 0 0 0)]))
  = ([sample (mkAnalytics 1 neg_infinity neg_infinity)],
     mkResponse 200
       (WithAnalytics "Campaign analytics updated successfully"
          (mkView 1 neg_infinity (JS.Text "-Infinity"))))
  /\ two_decimals (JS.Text "-Infinity") = false.
Proof. split; reflexivity. Qed.

(** C7 (amended).  Whenever [updateCampaignAnalytics] answers 200, the
    answer's analytics are the three fields [impressions], [clicks] and
    [ctr] of the document as now stored under that identifier: the two
    counters as they are, and [ctr] passed through [toFixed(2)].  The stored
    [ctr] is never NaN, and the text has exactly two decimal places whenever
    the stored [ctr] is finite and below 10^21 in magnitude. *)
Theorem accepted_update_reports_stored_analytics
    (id : string) (req : AnalyticsBody) (db : Collection) :
  code (snd (updateCampaignAnalytics id req db)) = 200%nat ->
  exists campaign view,
    findOne (by_id id) (fst (updateCampaignAnalytics id req db))
    = Some campaign
    /\ json (snd (updateCampaignAnalytics id req db))
       = WithAnalytics "Campaign analytics updated successfully" view
    /\ view_impressions view = impressions (analytics campaign)
    /\ view_clicks view = clicks (analytics campaign)
    /\ view_ctr view = JS.toFixed 2 (ctr (analytics campaign))
    /\ is_nan (ctr (analytics campaign)) = false
    /\ (fixed_range (ctr (analytics campaign)) = true ->
        two_decimals (view_ctr view) = true).
Proof.
  destruct (update_cases id req db) as
    [ | | | | | imp clk campaign _ _ _ Hfind _ Hval ]; try discriminate.
  intros _. simpl.
  set (a := incremented (analytics campaign) imp clk) in *.
  exists (set_analytics campaign a), (view_of a). split.
  - apply (update_first_found _ (fun _ => set_analytics campaign a) _ _ Hfind).
    apply (findOne_some _ _ _ Hfind).
  - apply validate_spec in Hval as (_ & _ & Hctr).
    split; [ reflexivity | split; [ reflexivity | split; [ reflexivity | ] ] ].
    split; [ reflexivity | split; [ exact Hctr | ] ].
    simpl. apply toFixed_two_decimals.
Qed.

Lemma accepted_update_reports_stored_analytics_witness :
  exists campaign view,
    findOne (by_id "c1")
      (fst (updateCampaignAnalytics "c1" (increment 50 4)
              [sample (mkAnalytics 100 10 10)]))
    = Some campaign
    /\ json (snd (updateCampaignAnalytics "c1" (increment 50 4)
                    [sample (mkAnalytics 100 10 10)]))
       = WithAnalytics "Campaign analytics updated successfully" view
    /\ view_impressions view = impressions (analytics campaign)
    /\ view_clicks view = clicks (analytics campaign)
    /\ view_ctr view = JS.toFixed 2 (ctr (analytics campaign))
    /\ is_nan (ctr (analytics campaign)) = false
    /\ (fixed_range (ctr (analytics campaign)) = true ->
        two_decimals (view_ctr view) = true).
Proof.
  apply (accepted_update_reports_stored_analytics "c1" (increment 50 4)
           [sample (mkAnalytics 100 10 10)]).
  reflexivity.
Defined.

(** ** Creation *)

(** C8.  Whenever [createCampaign] answers 201, the campaign it reports is
    the one it appended to the collection, and its three analytics fields
    are zero. *)
Theorem created_campaign_starts_at_zero
    (fresh_id userId : string) (file : option string) (b : CreateBody)
    (db : Collection) :
  code (snd (createCampaign fresh_id userId file b db)) = 201%nat ->
  exists campaign,
    json (snd (createCampaign fresh_id userId file b db))
    = WithCampaign "Campaign created successfully" campaign
    /\ fst (createCampaign fresh_id userId file b db) = (db ++ [campaign])%list
    /\ impressions (analytics campaign) = 0
    /\ clicks (analytics campaign) = 0
    /\ ctr (analytics campaign) = 0.
Proof.
  unfold createCampaign. destruct file as [url|]; [ | discriminate ].
  destruct (create fresh_id userId url b db) as [[campaign db']|] eqn:E;
    [ | discriminate ].
  intros _. exists campaign. simpl.
  unfold create in E.
  destruct (required (new_campaignName b)); try discriminate.
  destruct (required (new_campaignDescription b)); try discriminate.
  destruct (required (new_campaignType b)) as [type|]; try discriminate.
  destruct (required (new_headline b)); try discriminate.
  destruct (required (new_body b)); try discriminate.
  destruct (required (new_callToAction b)); try discriminate.
  destruct (required (Some url)); try discriminate.
  destruct (mem_string type campaignType_enum); try discriminate.
  injection E as <- <-. repeat split.
Qed.

Lemma created_campaign_starts_at_zero_witness :
  exists campaign,
    json (snd (createCampaign "c1" "u1" (Some "https://img.example/c1.png")
                 sample_request []))
    = WithCampaign "Campaign created successfully" campaign
    /\ fst (createCampaign "c1" "u1" (Some "https://img.example/c1.png")
              sample_request []) = ([] ++ [campaign])%list
    /\ impressions (analytics campaign) = 0
    /\ clicks (analytics campaign) = 0
    /\ ctr (analytics campaign) = 0.
Proof.
  apply (created_campaign_starts_at_zero "c1" "u1"
           (Some "https://img.example/c1.png") sample_request []).
  reflexivity.
Defined.

(** ** NaN increments *)

(** C9 (counterexample).  On a fresh document the increment [(NaN, 0)]
    passes the three tests, and the update does not proceed: the save refuses
    NaN impressions, the answer is 500 and the document keeps its zero
    counters. *)
Lemma nan_impressions_are_not_stored :
  let db := [sample (mkAnalytics 0 0 0)] in
  is_number (JS.VNumber nan) = true
  /\ (nan <? 0) = false
  /\ (impressions (incremented (mkAnalytics 0 0 0) nan 0)
       <? clicks (incremented (mkAnalytics 0 0 0) nan 0)) = false
  /\ updateCampaignAnalytics "c1" (increment nan 0) db
     = (db, mkResponse 500 (Message "Error updating campaign analytics")).
Proof. repeat (split; [ reflexivity | ]). reflexivity. Qed.

(** C9 (amended).  An increment pair in which one is NaN and neither is
    negative passes both validations and the comparison of the totals, and
    the total it is added to becomes NaN.  The save then refuses the
    document: the answer is 500, "Error updating campaign analytics", and
    nothing is stored. *)
Theorem nan_increment_is_refused (id : string) (db : Collection)
    (campaign : Campaign) (imp clk : float) :
  findOne (by_id id) db = Some campaign ->
  (imp <? 0) = false -> (clk <? 0) = false ->
  is_nan imp = true \/ is_nan clk = true ->
  let a := incremented (analytics campaign) imp clk in
  (impressions a <? clicks a) = false
  /\ (is_nan imp = true -> is_nan (impressions a) = true)
  /\ (is_nan clk = true -> is_nan (clicks a) = true)
  /\ updateCampaignAnalytics id (increment imp clk) db
     = (db, error_updating_analytics).
Proof.
  intros Hfind Himp Hclk Hnan a.
  assert ((impressions a <? clicks a) = false) as Hcmp.
  { destruct Hnan as [H | H]; apply is_nan_eq in H; subst; unfold a.
    - rewrite incremented_nan_impressions. simpl. apply ltb_nan_l.
    - rewrite incremented_nan_clicks. simpl. apply ltb_nan_r. }
  assert (is_nan imp = true -> is_nan (impressions a) = true) as Hi.
  { intros H. apply is_nan_eq in H. subst. unfold a.
    now rewrite incremented_nan_impressions. }
  assert (is_nan clk = true -> is_nan (clicks a) = true) as Hc.
  { intros H. apply is_nan_eq in H. subst. unfold a.
    now rewrite incremented_nan_clicks. }
  split; [ exact Hcmp | split; [ exact Hi | split; [ exact Hc | ] ] ].
  unfold increment. apply (update_refused id db imp clk campaign); trivial.
  fold a. unfold validate.
  destruct Hnan as [H | H].
  - now rewrite (Hi H).
  - rewrite (Hc H). now rewrite orb_true_r.
Qed.

Lemma nan_increment_is_refused_witness :
  let db := [sample (mkAnalytics 0 0 0)] in
  updateCampaignAnalytics "c1" (increment 5 nan) db
  = (db, error_updating_analytics)
  /\ updateCampaignAnalytics "c1" (increment nan 7) db
     = (db, error_updating_analytics).
Proof.
  intros db. split.
  - apply (proj2 (proj2 (proj2
             (nan_increment_is_refused "c1" db (sample (mkAnalytics 0 0 0))
                5 nan eq_refl eq_refl eq_refl (or_intror eq_refl))))).
  - apply (proj2 (proj2 (proj2
             (nan_increment_is_refused "c1" db (sample (mkAnalytics 0 0 0))
                nan 7 eq_refl eq_refl eq_refl (or_introl eq_refl))))).
Defined.

(** ** The dashboard's overall rate *)

(** C10.  [getDashboardStats] answers 200 with [overallCTR] the two-decimal
    text of the pooled ratio: the summed clicks of the user's campaigns over
    their summed impressions, times 100, when the summed impressions are
    above zero, and of [0] otherwise.  When the counters are whole numbers
    with totals below 2^53 the two sums are the exact totals.  The pooled
    ratio is not the mean of the campaigns' own rates: for campaigns at
    10/100 and 90/300 it is 25, and the mean of the rates is 20. *)
Theorem dashboard_overall_ctr_is_pooled (userId : string) (db : Collection) :
  let mine := filter (by_advertiser userId) db in
  let totalImpressions := reduce_sum impressions mine in
  let totalClicks := reduce_sum clicks mine in
  (exists stats,
      getDashboardStats userId db = mkResponse 200 (WithStats stats)
      /\ overallCTR stats
         = JS.toFixed 2
             (if 0 <? totalImpressions
              then totalClicks / totalImpressions * 100
              else 0)
      /\ forall shown clicked : list Z,
           counts impressions mine shown -> counts clicks mine clicked ->
           overallCTR stats
           = JS.toFixed 2
               (if (0 <? total shown)%Z
                then of_integer (total clicked) / of_integer (total shown)
                     * 100
                else 0))
  /\ (let two := [sample (mkAnalytics 100 10 10);
                  sample (mkAnalytics 300 90 30)] in
      (exists stats,
          getDashboardStats "u1" two = mkResponse 200 (WithStats stats)
          /\ overallCTR stats = JS.Text "25.00")
      /\ JS.toFixed 2 (mean_ctr two) = JS.Text "20.00").
Proof.
  intros mine totalImpressions totalClicks. split.
  - eexists. split; [ reflexivity | split; [ reflexivity | ] ].
    intros shown clicked Hshown Hclicked. cbn [overallCTR].
    unfold ratio_percent. fold mine.
    rewrite (reduce_sum_counts _ _ _ Hshown).
    rewrite (reduce_sum_counts _ _ _ Hclicked).
    destruct Hshown as (_ & Hpos & Hsum). unfold safe_bound in Hsum.
    pose proof (total_nonneg shown Hpos).
    change 0 with (of_integer 0) at 1.
    now rewrite of_integer_ltb by lia.
  - split; [ eexists; split; reflexivity | reflexivity ].
Qed.

(** Two campaigns of one user at 10/100 and 90/300, and one of another
    user, which is left out of the sums. *)
Lemma dashboard_overall_ctr_is_pooled_witness :
  exists stats,
    getDashboardStats "u1"
      [sample (mkAnalytics 100 10 10);
       mkCampaign "c2" "u2" "Other" "Other" "BANNER" "h" "b" "cta" "url"
         "ACTIVE" (mkAnalytics 1000 1000 100);
       sample (mkAnalytics 300 90 30)]
    = mkResponse 200 (WithStats stats)
    /\ overallCTR stats
       = JS.toFixed 2 (of_integer 100 / of_integer 400 * 100)
    /\ overallCTR stats = JS.Text "25.00".
Proof.
  destruct (proj1 (dashboard_overall_ctr_is_pooled "u1"
              [sample (mkAnalytics 100 10 10);
               mkCampaign "c2" "u2" "Other" "Other" "BANNER" "h" "b" "cta"
                 "url" "ACTIVE" (mkAnalytics 1000 1000 100);
               sample (mkAnalytics 300 90 30)]))
    as (stats & Hres & Hfloat & Hwhole).
  exists stats. split; [ exact Hres | split ].
  - apply (Hwhole [100; 300]%Z [10; 90]%Z).
    + split; [ reflexivity | split; [ | reflexivity ] ].
      repeat constructor; discriminate.
    + split; [ reflexivity | split; [ | reflexivity ] ].
      repeat constructor; discriminate.
  - rewrite Hfloat. reflexivity.
Defined.

(** * Further properties *)

(** X1.  The save hook is idempotent: running it on a document it has
    already processed changes nothing. *)
Theorem pre_save_idempotent (c : Campaign) :
  pre_save (pre_save c) = pre_save c.
Proof.
  destruct (0 <? impressions (analytics c)) eqn:E.
  - unfold pre_save. rewrite E.
    cbn [analytics set_analytics impressions clicks]. now rewrite E.
  - rewrite (pre_save_not_positive c E). now apply pre_save_not_positive.
Qed.

(** X2.  Whatever the stored analytics were, consistent or not, an accepted
    [updateCampaignAnalytics] leaves the document with clicks that do not
    exceed the impressions and a [ctr] re-derived from the two new
    counters. *)
Theorem accepted_update_rederives_ctr
    (id : string) (req : AnalyticsBody) (db : Collection) :
  code (snd (updateCampaignAnalytics id req db)) = 200%nat ->
  exists campaign,
    findOne (by_id id) (fst (updateCampaignAnalytics id req db))
    = Some campaign
    /\ consistent (analytics campaign).
Proof.
  destruct (update_cases id req db) as
    [ | | | | | imp clk campaign _ _ _ Hfind Hle _ ]; try discriminate.
  intros _. cbn [fst].
  exists (set_analytics campaign (incremented (analytics campaign) imp clk)).
  split.
  - apply (update_first_found _ (fun _ => set_analytics campaign _) _ _ Hfind).
    apply (findOne_some _ _ _ Hfind).
  - now apply consistent_incremented.
Qed.

(** A document whose [ctr] had been left at 5 with no impressions: the
    increment [(0, 0)] stores a [ctr] of 0. *)
Lemma accepted_update_rederives_ctr_witness :
  exists campaign,
    findOne (by_id "c1")
      (fst (updateCampaignAnalytics "c1" (increment 0 0)
              [sample (mkAnalytics 0 0 5)]))
    = Some campaign
    /\ consistent (analytics campaign).
Proof.
  apply (accepted_update_rederives_ctr "c1" (increment 0 0)
           [sample (mkAnalytics 0 0 5)]).
  reflexivity.
Defined.

(** ** More facts about the collection *)

Section MoreCollectionFacts.

Lemma findOne_none (filter : Campaign -> bool) (db : Collection) :
  (forall c, In c db -> filter c = false) -> findOne filter db = None.
Proof.
  unfold findOne. induction db as [|d rest IH]; simpl; trivial.
  intros H. rewrite (H d) by now left. apply IH. intros c Hc. apply H.
  now right.
Qed.

(** A replacement that keeps the identifier of what it replaces keeps the
    list of identifiers. *)
Lemma update_first_ids (filter : Campaign -> bool) (f : Campaign -> Campaign)
    (db : Collection) :
  (forall c, filter c = true -> _id (f c) = _id c) ->
  map _id (update_first filter f db) = map _id db.
Proof.
  intros Hf. induction db as [|d rest IH]; simpl; trivial.
  destruct (filter d) eqn:E; simpl; [ now rewrite Hf | now rewrite IH ].
Qed.

Lemma findOneAndUpdate_ids (filter : Campaign -> bool) (u : UpdateData)
    (db : Collection) :
  map _id (snd (findOneAndUpdate filter u db)) = map _id db.
Proof.
  unfold findOneAndUpdate. destruct (findOne filter db); trivial.
  cbn [snd]. now apply update_first_ids.
Qed.

(** Appending a document whose identifier is new keeps identifiers
    distinct. *)
Lemma unique_ids_snoc (db : Collection) (doc : Campaign) :
  existsb (by_id (_id doc)) db = false ->
  unique_ids db -> unique_ids (db ++ [doc])%list.
Proof.
  unfold unique_ids. intros Hfresh Hu. rewrite map_app. cbn [map].
  apply NoDup_app; [ exact Hu | repeat constructor; intros [] | ].
  intros x Hx [<- | []]. apply in_map_iff in Hx as (c & Hc & Hin).
  assert (existsb (by_id (_id doc)) db = true) as Hex.
  { apply existsb_exists. exists c. split; trivial.
    unfold by_id. rewrite Hc. apply String.eqb_refl. }
  congruence.
Qed.

(** A query that the replaced document neither matched nor matches now
    answers as before. *)
Lemma update_first_other (filter other : Campaign -> bool)
    (f : Campaign -> Campaign) (db : Collection) :
  (forall c, filter c = true -> other c = false /\ other (f c) = false) ->
  findOne other (update_first filter f db) = findOne other db.
Proof.
  intros H. unfold findOne. induction db as [|d rest IH]; simpl; trivial.
  destruct (filter d) eqn:E; simpl.
  - destruct (H d E) as [-> ->]. reflexivity.
  - now rewrite IH.
Qed.

(** A narrower query finds the replaced document when it matches it. *)
Lemma update_first_narrower (filter narrower : Campaign -> bool)
    (f : Campaign -> Campaign) (db : Collection) (c : Campaign) :
  findOne filter db = Some c ->
  (forall d, narrower d = true -> filter d = true) ->
  narrower (f c) = true ->
  findOne narrower (update_first filter f db) = Some (f c).
Proof.
  unfold findOne. intros Hfind Hsub Hc.
  induction db as [|d rest IH]; simpl in *; [ discriminate | ].
  destruct (filter d) eqn:E.
  - injection Hfind as ->. simpl. now rewrite Hc.
  - simpl. destruct (narrower d) eqn:N; [ | now apply IH ].
    apply Hsub in N. congruence.
Qed.

Lemma by_id_neq (id id' : string) (c : Campaign) :
  id' <> id -> by_id id c = true -> by_id id' c = false.
Proof.
  unfold by_id. intros Hne H. apply String.eqb_eq in H.
  apply String.eqb_neq. congruence.
Qed.

Lemma by_id_and_advertiser_spec (id userId : string) (c : Campaign) :
  by_id_and_advertiser id userId c = true
  <-> _id c = id /\ advertiser c = userId.
Proof.
  unfold by_id_and_advertiser. rewrite andb_true_iff, !String.eqb_eq.
  tauto.
Qed.

(** The first document with an identifier is also the first with that
    identifier and its own advertiser. *)
Lemma findOne_owner (id : string) (db : Collection) (c : Campaign) :
  findOne (by_id id) db = Some c ->
  findOne (by_id_and_advertiser id (advertiser c)) db = Some c.
Proof.
  unfold findOne. induction db as [|d rest IH]; simpl; [ discriminate | ].
  unfold by_id_and_advertiser at 1. fold (by_id id d).
  destruct (by_id id d) eqn:E.
  - intros [= ->]. simpl. now rewrite String.eqb_refl.
  - simpl. exact IH.
Qed.

(** What the first match splits the collection into. *)
Lemma findOne_split (filter : Campaign -> bool) (db : Collection)
    (c : Campaign) :
  findOne filter db = Some c ->
  exists before after,
    db = (before ++ c :: after)%list
    /\ (forall d, In d before -> filter d = false)
    /\ delete_first filter db = (before ++ after)%list
    /\ forall f, update_first filter f db = (before ++ f c :: after)%list.
Proof.
  unfold findOne. induction db as [|d rest IH]; simpl; [ discriminate | ].
  destruct (filter d) eqn:E.
  - intros [= ->]. exists [], rest. simpl. repeat split; trivial. tauto.
  - intros H. destruct (IH H) as (before & after & -> & Hb & Hd & Hu).
    exists (d :: before), after. simpl. repeat split.
    + intros x [<- | Hx]; auto.
    + now rewrite Hd.
    + intros f. now rewrite Hu.
Qed.

(** With distinct identifiers a stored document is the one its identifier
    finds. *)
Lemma unique_ids_findOne (db : Collection) (c : Campaign) :
  unique_ids db -> In c db -> findOne (by_id (_id c)) db = Some c.
Proof.
  unfold unique_ids, findOne. induction db as [|d rest IH]; simpl;
    [ tauto | ].
  intros Hnd [-> | Hin].
  - unfold by_id. now rewrite String.eqb_refl.
  - inversion Hnd as [|? ? Hnotin Hrest]; subst.
    destruct (by_id (_id c) d) eqn:E; [ | now apply IH ].
    apply by_id_eq in E. exfalso. apply Hnotin. rewrite E.
    now apply in_map.
Qed.

Lemma findOne_app (filter : Campaign -> bool) (front back : Collection) :
  findOne filter (front ++ back)%list
  = match findOne filter front with
    | Some c => Some c
    | None => findOne filter back
    end.
Proof.
  unfold findOne. induction front as [|d rest IH]; simpl; trivial.
  now destruct (filter d).
Qed.

End MoreCollectionFacts.

(** ** The analytics update and the rest of the collection *)

(** X3.  Whatever it answers, [updateCampaignAnalytics] leaves every document
    as it was apart from its [analytics], in the same order, and a query for
    any other identifier finds what it found before. *)
Theorem analytics_update_touches_analytics_only
    (id : string) (req : AnalyticsBody) (db : Collection) :
  let db' := fst (updateCampaignAnalytics id req db) in
  map (fun c => set_analytics c default_analytics) db'
  = map (fun c => set_analytics c default_analytics) db
  /\ forall id', id' <> id ->
       findOne (by_id id') db' = findOne (by_id id') db.
Proof.
  destruct (update_cases id req db) as
    [ | | | | | imp clk campaign _ _ _ Hfind _ _ ]; cbn [fst]; auto.
  split.
  - destruct (findOne_split _ _ _ Hfind) as (before & after & -> & _ & _ & Hu).
    rewrite Hu, !map_app. reflexivity.
  - intros id' Hne. apply update_first_other.
    intros c Hc. split.
    + now apply (by_id_neq id).
    + apply (by_id_neq id); trivial.
      apply (findOne_some _ _ _ Hfind).
Qed.

(** X4.  After an accepted analytics update, [getCampaignAnalytics] asked by
    the campaign's advertiser answers 200 with the campaign's name and the
    very three fields the update answered with. *)
Theorem analytics_read_after_update
    (id : string) (req : AnalyticsBody) (db : Collection) :
  code (snd (updateCampaignAnalytics id req db)) = 200%nat ->
  exists campaign view,
    findOne (by_id id) db = Some campaign
    /\ json (snd (updateCampaignAnalytics id req db))
       = WithAnalytics "Campaign analytics updated successfully" view
    /\ getCampaignAnalytics id (advertiser campaign)
         (fst (updateCampaignAnalytics id req db))
       = mkResponse 200 (NamedAnalytics (campaignName campaign) view).
Proof.
  destruct (update_cases id req db) as
    [ | | | | | imp clk campaign _ _ _ Hfind _ _ ]; try discriminate.
  intros _. cbn [fst snd].
  set (a := incremented (analytics campaign) imp clk).
  exists campaign, (view_of a). split; [ exact Hfind | split; trivial ].
  unfold getCampaignAnalytics.
  rewrite (update_first_narrower (by_id id)
             (by_id_and_advertiser id (advertiser campaign))
             (fun _ => set_analytics campaign a) db campaign Hfind).
  - reflexivity.
  - intros d Hd. apply by_id_and_advertiser_spec in Hd as [Hd _].
    unfold by_id. now apply String.eqb_eq.
  - apply by_id_and_advertiser_spec. split; trivial.
    apply by_id_eq. apply (findOne_some _ _ _ Hfind).
Qed.

Lemma analytics_read_after_update_witness :
  exists campaign view,
    findOne (by_id "c1") [sample (mkAnalytics 100 10 10)] = Some campaign
    /\ json (snd (updateCampaignAnalytics "c1" (increment 50 4)
                    [sample (mkAnalytics 100 10 10)]))
       = WithAnalytics "Campaign analytics updated successfully" view
    /\ getCampaignAnalytics "c1" (advertiser campaign)
         (fst (updateCampaignAnalytics "c1" (increment 50 4)
                 [sample (mkAnalytics 100 10 10)]))
       = mkResponse 200 (NamedAnalytics (campaignName campaign) view).
Proof.
  apply (analytics_read_after_update "c1" (increment 50 4)
           [sample (mkAnalytics 100 10 10)]).
  reflexivity.
Defined.



(** ** Ownership in [updateCampaign] and [deleteCampaign] *)

Lemma not_owner_not_found (id userId : string) (db : Collection) :
  (forall c, In c db -> _id c = id -> advertiser c <> userId) ->
  findOne (by_id_and_advertiser id userId) db = None.
Proof.
  intros Hown. apply findOne_none. intros c Hc.
  destruct (by_id_and_advertiser id userId c) eqn:E; trivial.
  apply by_id_and_advertiser_spec in E as [E1 E2].
  now destruct (Hown c Hc E1).
Qed.

Lemma findOne_after_misses (filter : Campaign -> bool)
    (before after : Collection) (c : Campaign) :
  (forall d, In d before -> filter d = false) -> filter c = true ->
  findOne filter (before ++ c :: after)%list = Some c.
Proof.
  unfold findOne. intros Hb Hc. induction before as [|d rest IH]; simpl.
  - now rewrite Hc.
  - rewrite (Hb d) by now left. apply IH. intros x Hx. apply Hb. now right.
Qed.

(** X6.  When the requested identifier is that of a stored document and no
    document with that identifier has the requesting user as its advertiser,
    [updateCampaign] and [deleteCampaign] both answer 404 and leave the
    collection as it was, whatever the body or the file. *)
Theorem update_and_delete_need_the_owner
    (id userId : string) (file : option string) (reqBody : UpdateData)
    (db : Collection) :
  (exists c, In c db /\ _id c = id) ->
  (forall c, In c db -> _id c = id -> advertiser c <> userId) ->
  updateCampaign id userId file reqBody db = (db, campaign_not_found)
  /\ deleteCampaign id userId db = (db, campaign_not_found).
Proof.
  intros _ Hown. pose proof (not_owner_not_found id userId db Hown) as Hnone.
  unfold updateCampaign, deleteCampaign, findOneAndUpdate.
  now rewrite !Hnone.
Qed.

Lemma update_and_delete_need_the_owner_witness :
  let db := [sample (mkAnalytics 100 10 10)] in
  updateCampaign "c1" "u2" None (status_only "PAUSED") db
  = (db, campaign_not_found)
  /\ deleteCampaign "c1" "u2" db = (db, campaign_not_found).
Proof.
  apply (update_and_delete_need_the_owner "c1" "u2" None
           (status_only "PAUSED") [sample (mkAnalytics 100 10 10)]).
  - exists (sample (mkAnalytics 100 10 10)). split; [ now left | reflexivity ].
  - intros c [<- | []] _. discriminate.
Defined.

(** X7.  [updateCampaign] answers 200 only when the collection holds a
    document with the requested identifier whose advertiser is the
    requesting user, and the campaign it returns has that identifier. *)
Theorem updateCampaign_returns_what_it_stored
    (id userId : string) (file : option string) (reqBody : UpdateData)
    (db : Collection) :
  code (snd (updateCampaign id userId file reqBody db)) = 200%nat ->
  exists old new,
    findOne (by_id_and_advertiser id userId) db = Some old
    /\ In old db
    /\ advertiser old = userId
    /\ json (snd (updateCampaign id userId file reqBody db))
       = WithCampaign "Campaign updated successfully" new
    /\ _id new = id
    /\ _id old = id.
Proof.
  unfold updateCampaign, findOneAndUpdate.
  set (updateData := match file with
                     | Some secure_url => with_imageUrl reqBody secure_url
                     | None => reqBody
                     end).
  destruct (findOne (by_id_and_advertiser id userId) db) as [old|] eqn:Hfind;
    [ | discriminate ].
  intros _. cbn [fst snd json].
  exists old, (apply_update updateData old).
  destruct (findOne_some _ _ _ Hfind) as [Hold Hin].
  apply by_id_and_advertiser_spec in Hold as [Hid Hadv].
  split; [ reflexivity | split; [ exact Hin | split; [ exact Hadv | ] ] ].
  split; [ reflexivity | split; exact Hid ].
Qed.

Lemma updateCampaign_returns_what_it_stored_witness :
  let body :=
    mkUpdateData None (Some "Summer sale") None None None None None
      (Some "https://elsewhere.example/x.png") None None in
  exists old new,
    findOne (by_id_and_advertiser "c1" "u1") [sample (mkAnalytics 100 10 10)]
    = Some old
    /\ In old [sample (mkAnalytics 100 10 10)]
    /\ advertiser old = "u1"
    /\ json (snd (updateCampaign "c1" "u1" (Some "https://img.example/n.png")
                    body [sample (mkAnalytics 100 10 10)]))
       = WithCampaign "Campaign updated successfully" new
    /\ _id new = "c1"
    /\ _id old = "c1".
Proof.
  intros body.
  apply (updateCampaign_returns_what_it_stored "c1" "u1"
           (Some "https://img.example/n.png") body
           [sample (mkAnalytics 100 10 10)]).
  reflexivity.
Defined.

(** With distinct identifiers, a replacement of the first match leaves one
    document with the replaced one's identifier: the replacement. *)
Lemma update_first_unique (filter : Campaign -> bool)
    (f : Campaign -> Campaign) (db : Collection) (c d : Campaign) :
  unique_ids db -> findOne filter db = Some c ->
  In d (update_first filter f db) -> _id d = _id c -> d = f c.
Proof.
  intros Hu Hfind Hin Hid.
  destruct (findOne_split _ _ _ Hfind) as (before & after & -> & _ & _ & Hup).
  rewrite Hup in Hin. unfold unique_ids in Hu. rewrite map_app in Hu.
  cbn [map] in Hu. apply NoDup_remove_2 in Hu.
  apply in_app_or in Hin as [Hin | [<- | Hin]]; trivial;
    exfalso; apply Hu; apply in_or_app; [ left | right ];
    rewrite <- Hid; now apply in_map.
Qed.

(** X8.  A body that names another advertiser hands the campaign over: with
    distinct identifiers, once [updateCampaign] has answered 200 to such a
    body, the former owner's [updateCampaign] and [deleteCampaign] are
    answered 404, and the new advertiser's query finds the campaign. *)
Theorem updateCampaign_can_hand_over
    (id userId other : string) (file : option string) (reqBody : UpdateData)
    (db : Collection) :
  unique_ids db ->
  upd_advertiser reqBody = Some other -> other <> userId ->
  code (snd (updateCampaign id userId file reqBody db)) = 200%nat ->
  let db' := fst (updateCampaign id userId file reqBody db) in
  (forall file' body',
      updateCampaign id userId file' body' db' = (db', campaign_not_found))
  /\ deleteCampaign id userId db' = (db', campaign_not_found)
  /\ exists c, findOne (by_id_and_advertiser id other) db' = Some c.
Proof.
  intros Hu Hother Hne. unfold updateCampaign at 1 2, findOneAndUpdate.
  set (updateData := match file with
                     | Some secure_url => with_imageUrl reqBody secure_url
                     | None => reqBody
                     end).
  assert (upd_advertiser updateData = Some other) as Hadv
    by (unfold updateData; now destruct file).
  destruct (findOne (by_id_and_advertiser id userId) db) as [old|] eqn:Hfind;
    [ | discriminate ].
  intros _. cbn [fst].
  set (db' := update_first (by_id_and_advertiser id userId)
                (apply_update updateData) db).
  cbv zeta.
  destruct (findOne_some _ _ _ Hfind) as [Hold _].
  apply by_id_and_advertiser_spec in Hold as [Hid _].
  assert (advertiser (apply_update updateData old) = other) as Hnew
    by (unfold apply_update; simpl; now rewrite Hadv).
  assert (forall d, In d db' -> _id d = id -> advertiser d <> userId)
    as Hown.
  { intros d Hd Hdid.
    rewrite (update_first_unique _ _ _ old d Hu Hfind Hd) by congruence.
    congruence. }
  pose proof (not_owner_not_found id userId _ Hown) as Hnone.
  split; [ | split ].
  - intros file' body'. unfold updateCampaign, findOneAndUpdate.
    now rewrite Hnone.
  - unfold deleteCampaign. now rewrite Hnone.
  - exists (apply_update updateData old).
    destruct (findOne_split _ _ _ Hfind)
      as (before & after & Hdb & _ & _ & Hup).
    unfold db'. rewrite Hup. apply findOne_after_misses.
    + intros d Hd.
      destruct (by_id_and_advertiser id other d) eqn:E; trivial.
      apply by_id_and_advertiser_spec in E as [E _].
      exfalso. subst db. unfold unique_ids in Hu. rewrite map_app in Hu.
      cbn [map] in Hu. apply NoDup_remove_2 in Hu. apply Hu.
      apply in_or_app. left. rewrite Hid, <- E. now apply in_map.
    + apply by_id_and_advertiser_spec. now split.
Qed.

Lemma updateCampaign_can_hand_over_witness :
  let body :=
    mkUpdateData (Some "u2") None None None None None None None None None in
  let db := [sample (mkAnalytics 100 10 10)] in
  let db' := fst (updateCampaign "c1" "u1" None body db) in
  (forall file' body',
      updateCampaign "c1" "u1" file' body' db' = (db', campaign_not_found))
  /\ deleteCampaign "c1" "u1" db' = (db', campaign_not_found)
  /\ exists c, findOne (by_id_and_advertiser "c1" "u2") db' = Some c.
Proof.
  intros body db db'.
  apply (updateCampaign_can_hand_over "c1" "u1" "u2" None body db).
  - repeat constructor. intros [].
  - reflexivity.
  - discriminate.
  - reflexivity.
Defined.

(** ** Deleting and creating documents *)

(** X9.  When [deleteCampaign] answers 200 it has removed exactly one
    document, the owner's first one with that identifier, and kept all the
    others in their order; a query for any other identifier finds what it
    found before, and with distinct identifiers no document with the deleted
    identifier is left. *)
Theorem deleteCampaign_removes_one_document
    (id userId : string) (db : Collection) :
  code (snd (deleteCampaign id userId db)) = 200%nat ->
  exists before deleted after,
    db = (before ++ deleted :: after)%list
    /\ fst (deleteCampaign id userId db) = (before ++ after)%list
    /\ _id deleted = id /\ advertiser deleted = userId
    /\ (forall id', id' <> id ->
        findOne (by_id id') (fst (deleteCampaign id userId db))
        = findOne (by_id id') db)
    /\ (unique_ids db ->
        findOne (by_id id) (fst (deleteCampaign id userId db)) = None).
Proof.
  unfold deleteCampaign.
  destruct (findOne (by_id_and_advertiser id userId) db) as [c|] eqn:Hfind;
    [ | discriminate ].
  intros _. cbn [fst].
  destruct (findOne_some _ _ _ Hfind) as [Hc _].
  apply by_id_and_advertiser_spec in Hc as [Hid Hadv].
  destruct (findOne_split _ _ _ Hfind) as (before & after & -> & _ & Hdel & _).
  exists before, c, after. rewrite Hdel.
  split; [ reflexivity | split; [ reflexivity | ] ].
  split; [ exact Hid | split; [ exact Hadv | split ] ].
  - intros id' Hne. rewrite !findOne_app.
    destruct (findOne (by_id id') before); trivial.
    unfold findOne. cbn [find].
    replace (by_id id' c) with false; trivial.
    symmetry. apply (by_id_neq id); trivial.
    unfold by_id. now apply String.eqb_eq.
  - intros Hu. apply findOne_none. intros d Hd.
    destruct (by_id id d) eqn:E; trivial. apply by_id_eq in E.
    exfalso. unfold unique_ids in Hu. rewrite map_app in Hu.
    cbn [map] in Hu. apply NoDup_remove_2 in Hu. apply Hu.
    rewrite Hid, <- E, <- map_app. now apply in_map.
Qed.

Lemma deleteCampaign_removes_one_document_witness :
  exists before deleted after,
    [sample (mkAnalytics 100 10 10)] = (before ++ deleted :: after)%list
    /\ fst (deleteCampaign "c1" "u1" [sample (mkAnalytics 100 10 10)])
       = (before ++ after)%list
    /\ _id deleted = "c1" /\ advertiser deleted = "u1"
    /\ (forall id', id' <> "c1" ->
        findOne (by_id id')
          (fst (deleteCampaign "c1" "u1" [sample (mkAnalytics 100 10 10)]))
        = findOne (by_id id') [sample (mkAnalytics 100 10 10)])
    /\ (unique_ids [sample (mkAnalytics 100 10 10)] ->
        findOne (by_id "c1")
          (fst (deleteCampaign "c1" "u1" [sample (mkAnalytics 100 10 10)]))
        = None).
Proof.
  apply (deleteCampaign_removes_one_document "c1" "u1"
           [sample (mkAnalytics 100 10 10)]).
  reflexivity.
Defined.

Lemma create_spec (fresh_id userId url : string) (b : CreateBody)
    (db : Collection) :
  (url <> "" /\ well_formed b = true ->
   exists doc,
     create fresh_id userId url b db = Some (doc, (db ++ [doc])%list)
     /\ _id doc = fresh_id /\ advertiser doc = userId
     /\ imageUrl doc = url /\ status doc = "ACTIVE"
     /\ Some (campaignName doc) = new_campaignName b
     /\ Some (campaignType doc) = new_campaignType b)
  /\ (create fresh_id userId url b db <> None ->
      url <> "" /\ well_formed b = true).
Proof.
  unfold create, well_formed.
  destruct (new_campaignName b) as [[|a1 s1]|]; cbn [required];
    try (split; [ intros [_ [=]] | intros []; reflexivity ]).
  destruct (new_campaignDescription b) as [[|a2 s2]|]; cbn [required];
    try (split; [ intros [_ [=]] | intros []; reflexivity ]).
  destruct (new_campaignType b) as [[|a3 s3]|]; cbn [required];
    try (split; [ intros [_ [=]] | intros []; reflexivity ]).
  destruct (new_headline b) as [[|a4 s4]|]; cbn [required];
    try (split; [ intros [_ [=]] | intros []; reflexivity ]).
  destruct (new_body b) as [[|a5 s5]|]; cbn [required];
    try (split; [ intros [_ [=]] | intros []; reflexivity ]).
  destruct (new_callToAction b) as [[|a6 s6]|]; cbn [required];
    try (split; [ intros [_ [=]] | intros []; reflexivity ]).
  destruct url as [|a7 s7];
    [ split; [ intros [[] _]; reflexivity | intros []; reflexivity ] | ].
  destruct (mem_string (String a3 s3) campaignType_enum);
    [ | split; [ intros [_ [=]] | intros []; reflexivity ] ].
  split.
  - intros _. eexists. split; [ reflexivity | ]. repeat split.
  - intros _. split; [ discriminate | reflexivity ].
Qed.

(** X10.  [createCampaign] answers 201 exactly when a file came with the
    request and the body has the six required texts, none empty, with a type
    of the enumeration.  Without a file it answers 400, with a file and a
    body the schema rejects it answers 500, and in both cases the collection
    is left as it was. *)
Theorem createCampaign_succeeds_exactly_when_well_formed
    (fresh_id userId : string) (file : option string) (b : CreateBody)
    (db : Collection) :
  let result := createCampaign fresh_id userId file b db in
  (code (snd result) = 201%nat
   <-> exists url, file = Some url /\ url <> "" /\ well_formed b = true)
  /\ (file = None ->
      result = (db, mkResponse 400 (Message "Image is required")))
  /\ (forall url, file = Some url -> url = "" \/ well_formed b = false ->
      result = (db, mkResponse 500 (Message "Error creating campaign")))
  /\ (code (snd result) <> 201%nat -> fst result = db).
Proof.
  unfold createCampaign. destruct file as [url|]; cbn zeta.
  - destruct (create_spec fresh_id userId url b db) as [Hok Hnone].
    destruct (create fresh_id userId url b db) as [[doc db']|] eqn:E.
    + destruct Hnone as [Hurl Hwf]; [ discriminate | ].
      cbn [fst snd code]. split; [ | split; [ | split ] ].
      * split; [ intros _; exists url; auto | reflexivity ].
      * discriminate.
      * intros url' [= <-] [-> | Hbad]; [ now destruct Hurl | congruence ].
      * intros H. now destruct H.
    + cbn [fst snd code]. split; [ | split; [ | split ] ]; trivial.
      * split; [ discriminate | ].
        intros (url' & [= <-] & Hurl & Hwf).
        destruct (Hok (conj Hurl Hwf)) as (doc & [=] & _).
      * discriminate.
  - cbn [fst snd code]. split; [ | split; [ | split ] ]; trivial.
    + split; [ discriminate | intros (url & [=] & _) ].
    + discriminate.
Qed.

Lemma createCampaign_succeeds_exactly_when_well_formed_witness :
  code (snd (createCampaign "c1" "u1" (Some "https://img.example/c1.png")
               sample_request [])) = 201%nat
  /\ createCampaign "c1" "u1" (Some "https://img.example/c1.png")
       (mkCreateBody (Some "Spring sale") (Some "Seasonal offer")
          (Some "POPUP") (Some "Save now") (Some "Everything must go")
          (Some "Shop")) []
     = ([], mkResponse 500 (Message "Error creating campaign"))
  /\ createCampaign "c1" "u1" None sample_request []
     = ([], mkResponse 400 (Message "Image is required")).
Proof.
  split; [ | split ].
  - apply (proj1 (createCampaign_succeeds_exactly_when_well_formed "c1" "u1"
                    (Some "https://img.example/c1.png") sample_request [])).
    exists "https://img.example/c1.png".
    split; [ reflexivity | split; [ discriminate | reflexivity ] ].
  - apply (proj1 (proj2 (proj2
             (createCampaign_succeeds_exactly_when_well_formed "c1" "u1"
                (Some "https://img.example/c1.png")
                (mkCreateBody (Some "Spring sale") (Some "Seasonal offer")
                   (Some "POPUP") (Some "Save now")
                   (Some "Everything must go") (Some "Shop")) [])))
             "https://img.example/c1.png" eq_refl).
    right. reflexivity.
  - apply (proj1 (proj2
             (createCampaign_succeeds_exactly_when_well_formed "c1" "u1"
                None sample_request []))).
    reflexivity.
Defined.

(** X11.  When [createCampaign] answers 201 for an identifier that no
    stored document has, the identifier now finds the campaign returned: it
    belongs to the requesting user, it is ["ACTIVE"], its image is the
    uploaded file, and its name and type are the body's.  Every other
    identifier finds what it found before, and distinct identifiers stay
    distinct. *)
Theorem created_campaign_is_found
    (fresh_id userId : string) (file : option string) (b : CreateBody)
    (db : Collection) :
  code (snd (createCampaign fresh_id userId file b db)) = 201%nat ->
  existsb (by_id fresh_id) db = false ->
  exists campaign,
    json (snd (createCampaign fresh_id userId file b db))
    = WithCampaign "Campaign created successfully" campaign
    /\ findOne (by_id fresh_id) (fst (createCampaign fresh_id userId file b db))
       = Some campaign
    /\ advertiser campaign = userId
    /\ status campaign = "ACTIVE"
    /\ Some (imageUrl campaign) = file
    /\ Some (campaignName campaign) = new_campaignName b
    /\ Some (campaignType campaign) = new_campaignType b
    /\ (forall id', id' <> fresh_id ->
        findOne (by_id id') (fst (createCampaign fresh_id userId file b db))
        = findOne (by_id id') db)
    /\ (unique_ids db ->
        unique_ids (fst (createCampaign fresh_id userId file b db))).
Proof.
  unfold createCampaign. destruct file as [url|]; [ | discriminate ].
  destruct (create_spec fresh_id userId url b db) as [Hok Hnone].
  destruct (create fresh_id userId url b db) as [[doc db']|] eqn:E;
    [ | discriminate ].
  intros _ Hfresh. cbn [fst snd json].
  destruct Hnone as [Hurl Hwf]; [ discriminate | ].
  destruct (Hok (conj Hurl Hwf))
    as (doc' & [= <- ->] & Hid & Hadv & Himg & Hst & Hname & Htype).
  assert (findOne (by_id fresh_id) db = None) as Hnone.
  { apply findOne_none. intros c Hc.
    destruct (by_id fresh_id c) eqn:Ec; trivial.
    assert (existsb (by_id fresh_id) db = true) as Hex
      by (apply existsb_exists; now exists c).
    congruence. }
  exists doc. split; [ reflexivity | ].
  split; [ | split; [ exact Hadv | split; [ exact Hst | split;
    [ now rewrite Himg | split; [ exact Hname | split;
      [ exact Htype | split ] ] ] ] ] ].
  - rewrite findOne_app, Hnone. unfold findOne, by_id. cbn [find].
    now rewrite Hid, String.eqb_refl.
  - intros id' Hne. rewrite findOne_app.
    destruct (findOne (by_id id') db); trivial.
    unfold findOne, by_id. cbn [find]. rewrite Hid.
    replace (fresh_id =? id')%string with false; trivial.
    symmetry. apply String.eqb_neq. congruence.
  - apply unique_ids_snoc. now rewrite Hid.
Qed.

Lemma created_campaign_is_found_witness :
  exists campaign,
    json (snd (createCampaign "c1" "u1" (Some "https://img.example/c1.png")
                 sample_request []))
    = WithCampaign "Campaign created successfully" campaign
    /\ findOne (by_id "c1")
         (fst (createCampaign "c1" "u1" (Some "https://img.example/c1.png")
                 sample_request []))
       = Some campaign
    /\ advertiser campaign = "u1"
    /\ status campaign = "ACTIVE"
    /\ Some (imageUrl campaign) = Some "https://img.example/c1.png"
    /\ Some (campaignName campaign) = new_campaignName sample_request
    /\ Some (campaignType campaign) = new_campaignType sample_request
    /\ (forall id', id' <> "c1" ->
        findOne (by_id id')
          (fst (createCampaign "c1" "u1" (Some "https://img.example/c1.png")
                  sample_request []))
        = findOne (by_id id') [])
    /\ (unique_ids [] ->
        unique_ids
          (fst (createCampaign "c1" "u1" (Some "https://img.example/c1.png")
                  sample_request []))).
Proof.
  apply (created_campaign_is_found "c1" "u1"
           (Some "https://img.example/c1.png") sample_request []);
    reflexivity.
Defined.

(** ** Status changes *)

(** X12.  [updateCampaignStatus] answers 400, with the collection as it was,
    to everything that is not one of the four texts ["PENDING"], ["ACTIVE"],
    ["PAUSED"] and ["COMPLETED"].  When it answers 200 the first document
    with that identifier has the new status and is otherwise as before (its
    analytics included), no other document has changed, and the answer names
    the identifier and the status stored. *)
Theorem updateCampaignStatus_changes_the_status_only
    (id : string) (new_status : JS.value) (db : Collection) :
  let result := updateCampaignStatus id new_status db in
  ((forall s, new_status = JS.VString s -> ~ In s validStatuses) ->
   result = (db, mkResponse 400 (Message "Invalid status value")))
  /\ (code (snd result) = 200%nat ->
      exists s before old after,
        new_status = JS.VString s /\ In s validStatuses
        /\ db = (before ++ old :: after)%list
        /\ findOne (by_id id) db = Some old
        /\ fst result = (before ++ set_status old s :: after)%list
        /\ json (snd result)
           = WithStatus "Campaign status updated successfully" id s).
Proof.
  assert (forall s l, mem_string s l = true <-> In s l) as Hmem.
  { intros s l. unfold mem_string. rewrite existsb_exists. split.
    - intros (x & Hx & E). apply String.eqb_eq in E. now subst.
    - intros H. exists s. split; trivial. apply String.eqb_refl. }
  unfold updateCampaignStatus. cbv zeta. split.
  - intros Hbad. destruct new_status as [ | |b|x|s| ]; trivial.
    destruct (mem_string s validStatuses) eqn:E; trivial.
    apply Hmem in E. now destruct (Hbad s eq_refl).
  - destruct new_status as [ | |b|x|s| ]; try discriminate.
    destruct (mem_string s validStatuses) eqn:E; [ | discriminate ].
    unfold findOneAndUpdate.
    destruct (findOne (by_id id) db) as [old|] eqn:Hfind; [ | discriminate ].
    intros _. cbn [fst snd json].
    destruct (findOne_split _ _ _ Hfind) as (before & after & Hdb & _ & _ & Hu).
    exists s, before, old, after.
    split; [ reflexivity | split; [ now apply Hmem | ] ].
    split; [ exact Hdb | split; [ reflexivity | split ] ].
    + rewrite Hu. reflexivity.
    + cbn [apply_update status_only upd_status or_else _id status].
      f_equal. apply by_id_eq. apply (findOne_some _ _ _ Hfind).
Qed.

Lemma updateCampaignStatus_changes_the_status_only_witness :
  let db := [sample (mkAnalytics 100 10 10)] in
  updateCampaignStatus "c1" (JS.VString "ARCHIVED") db
  = (db, mkResponse 400 (Message "Invalid status value"))
  /\ exists s before old after,
       JS.VString "PENDING" = JS.VString s /\ In s validStatuses
       /\ db = (before ++ old :: after)%list
       /\ findOne (by_id "c1") db = Some old
       /\ fst (updateCampaignStatus "c1" (JS.VString "PENDING") db)
          = (before ++ set_status old s :: after)%list
       /\ json (snd (updateCampaignStatus "c1" (JS.VString "PENDING") db))
          = WithStatus "Campaign status updated successfully" "c1" s.
Proof.
  intros db. split.
  - apply (proj1 (updateCampaignStatus_changes_the_status_only "c1"
                    (JS.VString "ARCHIVED") db)).
    intros s [= <-] H. simpl in H.
    repeat (destruct H as [H | H]; [ discriminate H | ]). exact H.
  - apply (proj2 (updateCampaignStatus_changes_the_status_only "c1"
                    (JS.VString "PENDING") db)).
    reflexivity.
Defined.

(** ** The dashboard and the collection *)

Lemma filter_active_of_mine (userId : string) (db : Collection) :
  filter (fun c => by_advertiser userId c && is_active c) db
  = filter is_active (filter (by_advertiser userId) db).
Proof.
  induction db as [|c rest IH]; simpl; trivial.
  destruct (by_advertiser userId c); simpl; [ | exact IH ].
  destruct (is_active c); now rewrite IH.
Qed.

(** X14.  A user's dashboard is made from that user's campaigns alone: two
    collections that hold the same campaigns of the user, in the same order,
    give the same answer, whatever else they hold. *)
Theorem dashboard_sees_own_campaigns_only
    (userId : string) (db1 db2 : Collection) :
  filter (by_advertiser userId) db1 = filter (by_advertiser userId) db2 ->
  getDashboardStats userId db1 = getDashboardStats userId db2.
Proof.
  intros H. unfold getDashboardStats. now rewrite !filter_active_of_mine, H.
Qed.

Lemma dashboard_sees_own_campaigns_only_witness :
  getDashboardStats "u1"
    [sample (mkAnalytics 100 10 10);
     mkCampaign "c2" "u2" "Other" "Other" "BANNER" "h" "b" "cta" "url"
       "ACTIVE" (mkAnalytics 1000 1000 100)]
  = getDashboardStats "u1" [sample (mkAnalytics 100 10 10)].
Proof.
  apply (dashboard_sees_own_campaigns_only "u1"
           [sample (mkAnalytics 100 10 10);
            mkCampaign "c2" "u2" "Other" "Other" "BANNER" "h" "b" "cta" "url"
              "ACTIVE" (mkAnalytics 1000 1000 100)]
           [sample (mkAnalytics 100 10 10)]).
  reflexivity.
Defined.

(** X15.  The dashboard lists one entry for each campaign of the user and
    for no other; [activeCampaigns] is the number of listed entries whose
    status is ["ACTIVE"], so it never exceeds the length of the list; and
    with distinct identifiers each entry shows exactly the name and the three
    analytics fields that [getCampaignAnalytics] answers for that identifier
    and user. *)
Theorem dashboard_entries_agree_with_campaign_analytics
    (userId : string) (db : Collection) :
  exists stats,
    getDashboardStats userId db = mkResponse 200 (WithStats stats)
    /\ campaigns stats
       = map performance_of (filter (by_advertiser userId) db)
    /\ activeCampaigns stats
       = List.length
           (filter (fun p => String.eqb (perf_status p) "ACTIVE")
              (campaigns stats))
    /\ (activeCampaigns stats <= List.length (campaigns stats))%nat
    /\ (unique_ids db ->
        forall p, In p (campaigns stats) ->
          getCampaignAnalytics (perf_id p) userId db
          = mkResponse 200 (NamedAnalytics (perf_name p) (performance p))).
Proof.
  eexists. split; [ reflexivity | ]. cbn [campaigns activeCampaigns].
  split; [ reflexivity | ].
  assert (forall l : Collection,
             List.length (filter is_active l)
             = List.length
                 (filter (fun p => String.eqb (perf_status p) "ACTIVE")
                    (map performance_of l))) as Hcount.
  { induction l as [|c l IH]; simpl; trivial.
    unfold is_active at 1. destruct (status c =? "ACTIVE")%string; simpl;
      now rewrite IH. }
  split; [ | split ].
  - now rewrite filter_active_of_mine, Hcount.
  - rewrite filter_active_of_mine, length_map. apply filter_length_le.
  - intros Hu p Hp. apply in_map_iff in Hp as (c & <- & Hc).
    apply filter_In in Hc as [Hin Hadv].
    unfold getCampaignAnalytics. cbn [performance_of perf_id perf_name
                                       performance].
    replace (findOne (by_id_and_advertiser (_id c) userId) db)
      with (Some c); trivial.
    symmetry. unfold by_advertiser in Hadv. apply String.eqb_eq in Hadv.
    rewrite <- Hadv. apply findOne_owner. now apply unique_ids_findOne.
Qed.

(** The totals of two orderings of the same whole numbers. *)
Lemma counts_permuted (field : Analytics -> float) (cs cs' : list Campaign)
    (ns : list Z) :
  Permutation cs cs' -> counts field cs ns ->
  exists ns', counts field cs' ns' /\ total ns' = total ns.
Proof.
  intros Hperm (Hmap & Hpos & Hsum).
  assert (Permutation (map (fun c => field (analytics c)) cs')
            (map of_integer ns)) as Hp
    by (rewrite <- Hmap; apply Permutation_map; now symmetry).
  apply Permutation_map_inv in Hp as (ns' & Hmap' & Hperm').
  assert (total ns' = total ns) as Ht.
  { clear - Hperm'. induction Hperm'; simpl; lia. }
  exists ns'. split; [ split; [ exact Hmap' | split ] | exact Ht ].
  - rewrite Forall_forall in *. intros n Hn. apply Hpos.
    now apply (Permutation_in n (Permutation_sym Hperm')).
  - now rewrite Ht.
Qed.

Lemma filter_permuted (f : Campaign -> bool) (l l' : list Campaign) :
  Permutation l l' -> Permutation (filter f l) (filter f l').
Proof.
  induction 1 as [ | x l l' _ IH | x y l | l l' l'' _ IH1 _ IH2 ]; simpl.
  - constructor.
  - destruct (f x); [ now constructor | exact IH ].
  - destruct (f x), (f y); try apply Permutation_refl. constructor.
  - now transitivity (filter f l').
Qed.

(** X16.  When the impressions and clicks of the user's campaigns are whole
    numbers with totals below 2^53, the dashboard's [totalImpressions],
    [overallCTR] and [activeCampaigns] do not depend on the order in which
    the collection holds the documents. *)
Theorem dashboard_totals_ignore_order (userId : string)
    (db db' : Collection) (shown clicked : list Z) :
  Permutation db db' ->
  counts impressions (filter (by_advertiser userId) db) shown ->
  counts clicks (filter (by_advertiser userId) db) clicked ->
  exists stats stats',
    getDashboardStats userId db = mkResponse 200 (WithStats stats)
    /\ getDashboardStats userId db' = mkResponse 200 (WithStats stats')
    /\ totalImpressions stats = of_integer (total shown)
    /\ totalImpressions stats' = totalImpressions stats
    /\ overallCTR stats' = overallCTR stats
    /\ activeCampaigns stats' = activeCampaigns stats.
Proof.
  intros Hperm Hshown Hclicked.
  pose proof (filter_permuted (by_advertiser userId) _ _ Hperm) as Hmine.
  destruct (counts_permuted _ _ _ _ Hmine Hshown) as (shown' & Hs' & Ets).
  destruct (counts_permuted _ _ _ _ Hmine Hclicked) as (clicked' & Hc' & Etc).
  eexists. eexists. split; [ reflexivity | split; [ reflexivity | ] ].
  cbn [totalImpressions overallCTR activeCampaigns].
  rewrite (reduce_sum_counts _ _ _ Hshown), (reduce_sum_counts _ _ _ Hs').
  rewrite (reduce_sum_counts _ _ _ Hclicked), (reduce_sum_counts _ _ _ Hc').
  rewrite Ets, Etc. repeat split.
  apply Permutation_length. apply filter_permuted. now symmetry.
Qed.

Lemma dashboard_totals_ignore_order_witness :
  exists stats stats',
    getDashboardStats "u1"
      [sample (mkAnalytics 100 10 10); sample (mkAnalytics 300 90 30)]
    = mkResponse 200 (WithStats stats)
    /\ getDashboardStats "u1"
         [sample (mkAnalytics 300 90 30); sample (mkAnalytics 100 10 10)]
       = mkResponse 200 (WithStats stats')
    /\ totalImpressions stats = of_integer (total [100; 300]%Z)
    /\ totalImpressions stats' = totalImpressions stats
    /\ overallCTR stats' = overallCTR stats
    /\ activeCampaigns stats' = activeCampaigns stats.
Proof.
  apply (dashboard_totals_ignore_order "u1"
           [sample (mkAnalytics 100 10 10); sample (mkAnalytics 300 90 30)]
           [sample (mkAnalytics 300 90 30); sample (mkAnalytics 100 10 10)]
           [100; 300]%Z [10; 90]%Z).
  - apply perm_swap.
  - split; [ reflexivity | split; [ | reflexivity ] ].
    repeat constructor; discriminate.
  - split; [ reflexivity | split; [ | reflexivity ] ].
    repeat constructor; discriminate.
Defined.

(** ** Identifiers across requests *)

Lemma handle_update_ids (r : request) (db : Collection) :
  is_update r = true -> map _id (fst (handle r db)) = map _id db.
Proof.
  destruct r as [fresh_id userId file b | id userId file u | id userId
                | id new_status | id b | id u]; try discriminate;
    intros _; cbn [handle].
  - unfold updateCampaign.
    set (updateData := match file with
                       | Some secure_url => with_imageUrl u secure_url
                       | None => u
                       end).
    pose proof (findOneAndUpdate_ids (by_id_and_advertiser id userId)
                  updateData db) as H.
    destruct (findOneAndUpdate (by_id_and_advertiser id userId)
                updateData db) as [[c|] db']; trivial.
  - unfold updateCampaignStatus.
    destruct new_status as [ | |b|x|s| ]; trivial.
    destruct (mem_string s validStatuses); trivial.
    pose proof (findOneAndUpdate_ids (by_id id) (status_only s) db) as H.
    destruct (findOneAndUpdate (by_id id) (status_only s) db)
      as [[c|] db']; trivial.
  - destruct (update_cases id b db) as
      [ | | | | | imp clk campaign _ _ _ Hfind _ _ ]; trivial.
    cbn [fst]. apply update_first_ids. intros c Hc.
    cbn [set_analytics _id]. apply by_id_eq in Hc. rewrite Hc.
    apply by_id_eq. apply (findOne_some _ _ _ Hfind).
  - unfold updateCampaignDetails.
    pose proof (findOneAndUpdate_ids (by_id id) u db) as H.
    destruct (findOneAndUpdate (by_id id) u db) as [[c|] db']; trivial.
Qed.

Lemma handle_unique_ids (r : request) (db : Collection) :
  unique_ids db -> fresh_ids [r] db = true ->
  unique_ids (fst (handle r db)).
Proof.
  intros Hu Hfresh. destruct (is_update r) eqn:Er.
  - unfold unique_ids. now rewrite handle_update_ids.
  - destruct r as [fresh_id userId file b | | id userId | | | ];
      try discriminate; cbn [handle].
    + cbn [fresh_ids] in Hfresh. rewrite andb_true_r in Hfresh.
      apply negb_true_iff in Hfresh.
      unfold createCampaign. destruct file as [url|]; trivial.
      destruct (create_spec fresh_id userId url b db) as [Hok Hnone].
      destruct (create fresh_id userId url b db) as [[doc db']|] eqn:E;
        trivial.
      destruct Hnone as [Hurl Hwf]; [ discriminate | ].
      destruct (Hok (conj Hurl Hwf)) as (doc' & [= <- ->] & Hid & _).
      cbn [fst]. apply unique_ids_snoc; trivial. now rewrite Hid.
    + unfold deleteCampaign.
      destruct (findOne (by_id_and_advertiser id userId) db) as [c|] eqn:Hf;
        trivial.
      cbn [fst].
      destruct (findOne_split _ _ _ Hf) as (before & after & -> & _ & -> & _).
      unfold unique_ids in *. rewrite map_app in *. cbn [map] in Hu.
      now apply NoDup_remove_1 in Hu.
Qed.

(** X17.  Requests other than creations and deletions leave the list of
    identifiers as it is: no handler rewrites an [_id], and documents are
    added by [createCampaign] and removed by [deleteCampaign] only.  So
    along any sequence of requests in which every creation is given an
    identifier not in use, the stored identifiers stay distinct. *)
Theorem identifiers_stay_distinct (rs : list request) (db : Collection) :
  (forall r db0, is_update r = true ->
     map _id (fst (handle r db0)) = map _id db0)
  /\ (unique_ids db -> fresh_ids rs db = true -> unique_ids (run rs db)).
Proof.
  split; [ exact handle_update_ids | ].
  revert db. induction rs as [|r rs IH]; intros db Hu Hfresh; trivial.
  cbn [run fold_left]. apply IH.
  - apply handle_unique_ids; trivial. cbn [fresh_ids] in *.
    apply andb_prop in Hfresh as [-> _]. now destruct r.
  - cbn [fresh_ids] in Hfresh. now apply andb_prop in Hfresh.
Qed.

Lemma identifiers_stay_distinct_witness :
  unique_ids
    (run [CreateCampaign "c1" "u1" (Some "https://img.example/c1.png")
            sample_request;
          CreateCampaign "c2" "u1" (Some "https://img.example/c2.png")
            sample_request;
          UpdateCampaignAnalytics "c1" (increment 100 10);
          DeleteCampaign "c2" "u1"] []).
Proof.
  apply (proj2 (identifiers_stay_distinct
                  [CreateCampaign "c1" "u1" (Some "https://img.example/c1.png")
                     sample_request;
                   CreateCampaign "c2" "u1" (Some "https://img.example/c2.png")
                     sample_request;
                   UpdateCampaignAnalytics "c1" (increment 100 10);
                   DeleteCampaign "c2" "u1"] [])).
  - constructor.
  - reflexivity.
Defined.

(** ** Names of uploaded files *)

Section FileNames.

Lemma split_dot_pieces (s : string) :
  Forall (fun piece => no_dot piece = true) (split_dot s)
  /\ split_dot s <> [].
Proof.
  induction s as [|a s [IH1 IH2]]; simpl.
  - split; [ repeat constructor | discriminate ].
  - destruct (Ascii.eqb a ".") eqn:E.
    + split; [ now constructor | discriminate ].
    + destruct (split_dot s) as [|piece pieces]; [ now destruct IH2 | ].
      inversion IH1; subst. split; [ | discriminate ].
      constructor; trivial. simpl. now rewrite E.
Qed.

Lemma split_dot_no_dot (s : string) : no_dot s = true -> split_dot s = [s].
Proof.
  induction s as [|a s IH]; simpl; trivial.
  intros H. apply andb_prop in H as [Ha Hs]. apply negb_true_iff in Ha.
  now rewrite Ha, IH.
Qed.

Lemma split_dot_after_point (base e : string) :
  exists piece pieces,
    split_dot (base ++ String "." e) = ((piece :: pieces) ++ split_dot e)%list.
Proof.
  induction base as [|a base (piece & pieces & IH)]; simpl.
  - now exists EmptyString, [].
  - rewrite IH. destruct (Ascii.eqb a ".").
    + now exists EmptyString, (piece :: pieces).
    + now exists (String a piece), pieces.
Qed.

Lemma pop_after (front pieces : list string) :
  pieces <> [] -> pop (front ++ pieces) = pop pieces.
Proof.
  unfold pop. intros H. induction front as [|p front IH]; trivial.
  simpl. destruct (front ++ pieces)%list eqn:E; trivial.
  apply app_eq_nil in E as [_ E]. congruence.
Qed.

Lemma last_point (s : string) :
  no_dot s = false ->
  exists base e, s = base ++ String "." e /\ no_dot e = true.
Proof.
  induction s as [|a s IH]; simpl; [ discriminate | ].
  destruct (no_dot s) eqn:Es.
  - rewrite andb_true_r. intros H. apply negb_false_iff in H.
    apply Ascii.eqb_eq in H. subst a. now exists EmptyString, s.
  - intros _. destruct (IH eq_refl) as (base & e & -> & He).
    now exists (String a base), e.
Qed.

Lemma append_assoc (s t u : string) : (s ++ t) ++ u = s ++ (t ++ u).
Proof. induction s as [|a s IH]; simpl; trivial. now rewrite IH. Qed.

Lemma pop_In (pieces : list string) : pieces <> [] -> In (pop pieces) pieces.
Proof.
  unfold pop. induction pieces as [|p pieces IH]; [ congruence | ].
  intros _. destruct pieces as [|q pieces]; [ now left | ].
  right. apply IH. discriminate.
Qed.

End FileNames.

(** X18.  The name under which an upload is stored ends with a point and
    the extension of the original name, and the extension holds no point.
    The extension is what follows the last point of the original name; a
    name without a point is its own extension, so it is appended whole. *)
Theorem filename_keeps_the_extension
    (fieldname : string) (now random : N) (originalname : string) :
  let extension := pop (split_dot originalname) in
  no_dot extension = true
  /\ ends_with ("." ++ extension)
       (filename fieldname now random originalname)
  /\ ends_with extension originalname
  /\ (no_dot originalname = true -> extension = originalname)
  /\ (forall base e,
        originalname = base ++ "." ++ e -> no_dot e = true ->
        extension = e).
Proof.
  intros extension.
  assert (forall base e, originalname = base ++ String "." e ->
                         no_dot e = true -> extension = e) as Hext.
  { intros base e -> He. unfold extension.
    destruct (split_dot_after_point base e) as (piece & pieces & ->).
    rewrite pop_after by apply split_dot_pieces.
    now rewrite split_dot_no_dot. }
  assert (no_dot originalname = true -> extension = originalname) as Hwhole.
  { intros H. unfold extension. now rewrite split_dot_no_dot. }
  split; [ | split; [ | split; [ | split ] ] ]; trivial.
  - destruct (split_dot_pieces originalname) as [Hall Hne].
    rewrite Forall_forall in Hall. apply Hall. now apply pop_In.
  - unfold filename, ends_with. cbv zeta. fold extension.
    exists (fieldname ++ "-"
            ++ JS.digits (Z.of_N now) ++ "-" ++ JS.digits (Z.of_N random)).
    now rewrite !append_assoc.
  - destruct (no_dot originalname) eqn:E.
    + exists EmptyString. now rewrite Hwhole.
    + destruct (last_point originalname E) as (base & e & Hs & He).
      exists (base ++ "."). rewrite (Hext base e Hs He), Hs.
      now rewrite append_assoc.
Qed.

Lemma filename_keeps_the_extension_witness :
  filename "image" 1700000000000 123456789 "summer.banner.png"
  = "image-1700000000000-123456789.png"
  /\ filename "image" 1700000000000 123456789 "README"
     = "image-1700000000000-123456789.README"
  /\ pop (split_dot "summer.banner.png") = "png".
Proof.
  split; [ reflexivity | split; [ reflexivity | ] ].
  apply (proj2 (proj2 (proj2 (proj2
           (filename_keeps_the_extension "image" 1700000000000 123456789
              "summer.banner.png")))) "summer.banner" "png");
    reflexivity.
Defined.
